(** * keli: the fetch, merge and cache engine of the weather aggregator

    A shallow embedding of [keli.go] (the revision with the hourly forecast)
    and the properties of its merger, cache facade, city-name normaliser,
    fan-out/fan-in coordinator and plain-text formatter.

    Conventions of the embedding:
    - a Go [string] is a sequence of bytes: Rocq's [string];
    - a Go [float64] is a binary64 float: Rocq's primitive [float], compared
      with [PrimFloat.eqb] and [PrimFloat.ltb] (IEEE comparison, as Go's
      [!=] and [>]);
    - a Go [int] is a [Z] (the code does no arithmetic on them);
    - a Go slice is [option (list _)]: [None] is the [nil] slice, [Some l] a
      non-nil slice of the elements [l] (so [Some []] is an empty, non-nil
      slice);
    - a [time.Time] is a [Z], the nanoseconds elapsed since Go's zero time;
      a [time.Duration] is a [Z] of nanoseconds in the int64 range;
    - the [map[string]WeatherData] cache is a [gmap string WeatherData]. *)

From Stdlib Require Import ZArith List String Ascii Floats Bool Lia.
From stdpp Require Import gmap strings.
Import ListNotations.

Local Open Scope Z_scope.

(** ** Data model *)

Module Hourly.
(** [type HourlyForecast struct]. *)
Record HourlyForecast : Type := mk {
  Hour : string;
  WeatherSymbol : string;
  Temperature : float;
  TemperatureFeelsLike : float;
  WindSpeed : Z;
  Rainfall : float;
  RainChance : Z
}.
End Hourly.

Definition Time : Type := Z.
Definition Duration : Type := Z.

(** [type WeatherData struct], fields in the order of the source. *)
Record WeatherData : Type := mkWeatherData {
  City : string;
  ObservationHour : Z;
  WeatherSummary : string;
  Temperature : float;
  TemperatureFeelsLike : float;
  TemperatureMin : float;
  TemperatureMax : float;
  Rainfall : float;
  Snowfall : float;
  WindSpeed : Z;
  RainChance : Z;
  TemperatureTomorrow : float;
  TemperatureMinTomorrow : float;
  Sunrise : string;
  Sunset : string;
  DayLength : string;
  LastUpdated : Time;
  HourlyForecast : option (list Hourly.HourlyForecast)
}.

(** The zero value [WeatherData{}]. *)
Definition WeatherData_zero : WeatherData :=
  {| City := EmptyString; ObservationHour := 0; WeatherSummary := EmptyString;
     Temperature := 0%float; TemperatureFeelsLike := 0%float;
     TemperatureMin := 0%float; TemperatureMax := 0%float;
     Rainfall := 0%float; Snowfall := 0%float; WindSpeed := 0;
     RainChance := 0; TemperatureTomorrow := 0%float;
     TemperatureMinTomorrow := 0%float; Sunrise := EmptyString;
     Sunset := EmptyString; DayLength := EmptyString; LastUpdated := 0;
     HourlyForecast := None |}.

(** ** The merger: [mergeWeatherData] *)

(** [s != ""] on Go strings. *)
Definition nonEmptyString (s : string) : bool := negb (String.eqb s EmptyString).

(** [x != 0] on float64: IEEE comparison, so [-0] is zero and NaN is not. *)
Definition nonZeroFloat64 (x : float) : bool := negb (PrimFloat.eqb x 0%float).

(** [n != 0] on int. *)
Definition nonZeroInt (n : Z) : bool := negb (Z.eqb n 0).

(** [s != nil] on slices. *)
Definition nonNil {A : Type} (s : option (list A)) : bool :=
  match s with Some _ => true | None => false end.

(** The closure [chooseNonEmptyString]. *)
Definition chooseNonEmptyString (existing incoming : string) : string :=
  if nonEmptyString existing then existing else incoming.

(** The closure [chooseNonZeroFloat64]. *)
Definition chooseNonZeroFloat64 (existing incoming : float) : float :=
  if nonZeroFloat64 incoming then incoming else existing.

(** One iteration of the [for _, d := range data] loop on the accumulator
    [md]. Every assignment of the body reads only the field it writes, so
    the body is one record construction; [RainChance] and [LastUpdated] are
    not assigned by the loop. *)
Definition mergeStep (md d : WeatherData) : WeatherData :=
  {| City := chooseNonEmptyString (City md) (City d);
     TemperatureMax := chooseNonZeroFloat64 (TemperatureMax md) (TemperatureMax d);
     TemperatureMin := chooseNonZeroFloat64 (TemperatureMin md) (TemperatureMin d);
     Rainfall := chooseNonZeroFloat64 (Rainfall md) (Rainfall d);
     Snowfall := chooseNonZeroFloat64 (Snowfall md) (Snowfall d);
     WindSpeed := if nonZeroInt (WindSpeed d) then WindSpeed d else WindSpeed md;
     WeatherSummary := chooseNonEmptyString (WeatherSummary md) (WeatherSummary d);
     Sunrise := chooseNonEmptyString (Sunrise md) (Sunrise d);
     Sunset := chooseNonEmptyString (Sunset md) (Sunset d);
     DayLength := chooseNonEmptyString (DayLength md) (DayLength d);
     Temperature := chooseNonZeroFloat64 (Temperature md) (Temperature d);
     TemperatureFeelsLike :=
       chooseNonZeroFloat64 (TemperatureFeelsLike md) (TemperatureFeelsLike d);
     ObservationHour :=
       if nonZeroInt (ObservationHour d) then ObservationHour d
       else ObservationHour md;
     TemperatureTomorrow :=
       chooseNonZeroFloat64 (TemperatureTomorrow md) (TemperatureTomorrow d);
     TemperatureMinTomorrow :=
       chooseNonZeroFloat64 (TemperatureMinTomorrow md) (TemperatureMinTomorrow d);
     HourlyForecast :=
       if nonNil (HourlyForecast d) then HourlyForecast d else HourlyForecast md;
     RainChance := RainChance md;
     LastUpdated := LastUpdated md |}.

(** The loop from an accumulator [md]. *)
Definition mergeFrom (md : WeatherData) (data : list WeatherData) : WeatherData :=
  fold_left mergeStep data md.

(** [func mergeWeatherData(data []WeatherData) (md WeatherData)]: the named
    result starts as the zero value. *)
Definition mergeWeatherData (data : list WeatherData) : WeatherData :=
  mergeFrom WeatherData_zero data.

(** The values assigned to [md.HourlyForecast] while the loop runs, in the
    order of the assignments: the loop with a log of the executions of
    [md.HourlyForecast = d.HourlyForecast], which the guard
    [d.HourlyForecast != nil] lets through. *)
Definition forecastAssignments (data : list WeatherData)
  : list (option (list Hourly.HourlyForecast)) :=
  fold_left
    (fun log d =>
       if nonNil (HourlyForecast d) then log ++ [HourlyForecast d] else log)
    data [].

(** The shape of the slices the parsers of the repository build: they
    start from the zero value and only [append] to it, so a slice is [nil]
    or holds an element. *)
Definition nilOrPopulated {A : Type} (s : option (list A)) : bool :=
  match s with Some [] => false | _ => true end.

(** *** The fields the precedence rules speak about *)

Inductive StringField : Type :=
  FCity | FWeatherSummary | FSunrise | FSunset | FDayLength.

Definition getString (f : StringField) : WeatherData -> string :=
  match f with
  | FCity => City
  | FWeatherSummary => WeatherSummary
  | FSunrise => Sunrise
  | FSunset => Sunset
  | FDayLength => DayLength
  end.

Inductive FloatField : Type :=
  FTemperatureMax | FTemperatureMin | FRainfall | FSnowfall | FTemperature
| FTemperatureFeelsLike | FTemperatureTomorrow | FTemperatureMinTomorrow.

Definition getFloat (f : FloatField) : WeatherData -> float :=
  match f with
  | FTemperatureMax => TemperatureMax
  | FTemperatureMin => TemperatureMin
  | FRainfall => Rainfall
  | FSnowfall => Snowfall
  | FTemperature => Temperature
  | FTemperatureFeelsLike => TemperatureFeelsLike
  | FTemperatureTomorrow => TemperatureTomorrow
  | FTemperatureMinTomorrow => TemperatureMinTomorrow
  end.

Inductive IntField : Type := FWindSpeed | FObservationHour.

Definition getInt (f : IntField) : WeatherData -> Z :=
  match f with
  | FWindSpeed => WindSpeed
  | FObservationHour => ObservationHour
  end.

(** *** The precedence rules as the specification words them *)

(** First value of the sequence that satisfies [p], [dflt] when none does. *)
Fixpoint firstSuch {A : Type} (p : A -> bool) (dflt : A) (l : list A) : A :=
  match l with
  | [] => dflt
  | x :: l' => if p x then x else firstSuch p dflt l'
  end.

(** Last value of the sequence that satisfies [p], [dflt] when none does. *)
Fixpoint lastSuch {A : Type} (p : A -> bool) (dflt : A) (l : list A) : A :=
  match l with
  | [] => dflt
  | x :: l' => if existsb p l' then lastSuch p dflt l' else
               if p x then x else dflt
  end.

(** "First non-empty value wins". *)
Definition firstNonEmpty : list string -> string :=
  firstSuch nonEmptyString EmptyString.

(** "Last non-zero value wins", for floats and for integers. *)
Definition lastNonZeroFloat : list float -> float :=
  lastSuch nonZeroFloat64 0%float.

Definition lastNonZeroInt : list Z -> Z := lastSuch nonZeroInt 0.

(** A slice that holds at least one element ([len(s) > 0]). *)
Definition nonEmptySlice {A : Type} (s : option (list A)) : bool :=
  match s with Some (_ :: _) => true | _ => false end.

(** "Last source that supplies a non-empty sequence wins". *)
Definition lastNonEmptyForecast
  : list (option (list Hourly.HourlyForecast)) ->
    option (list Hourly.HourlyForecast) :=
  lastSuch nonEmptySlice None.

(** "Set by the first source in merge order that supplies a non-empty
    sequence". *)
Definition firstNonEmptyForecast
  : list (option (list Hourly.HourlyForecast)) ->
    option (list Hourly.HourlyForecast) :=
  firstSuch nonEmptySlice None.

(** What the loop computes: the last slice that is not nil. *)
Definition lastNonNilForecast
  : list (option (list Hourly.HourlyForecast)) ->
    option (list Hourly.HourlyForecast) :=
  lastSuch (fun s => nonNil s) None.

(** *** Field assignments and sample partial records *)

(** [w.LastUpdated = t] and the like: the record with one field replaced. *)
Definition setCity (v : string) (w : WeatherData) : WeatherData :=
  let 'mkWeatherData _ b c d e f g h i j k l m n o p q r := w in
  mkWeatherData v b c d e f g h i j k l m n o p q r.

Definition setObservationHour (v : Z) (w : WeatherData) : WeatherData :=
  let 'mkWeatherData a _ c d e f g h i j k l m n o p q r := w in
  mkWeatherData a v c d e f g h i j k l m n o p q r.

Definition setWeatherSummary (v : string) (w : WeatherData) : WeatherData :=
  let 'mkWeatherData a b _ d e f g h i j k l m n o p q r := w in
  mkWeatherData a b v d e f g h i j k l m n o p q r.

Definition setTemperature (v : float) (w : WeatherData) : WeatherData :=
  let 'mkWeatherData a b c _ e f g h i j k l m n o p q r := w in
  mkWeatherData a b c v e f g h i j k l m n o p q r.

Definition setTemperatureMin (v : float) (w : WeatherData) : WeatherData :=
  let 'mkWeatherData a b c d e _ g h i j k l m n o p q r := w in
  mkWeatherData a b c d e v g h i j k l m n o p q r.

Definition setTemperatureMax (v : float) (w : WeatherData) : WeatherData :=
  let 'mkWeatherData a b c d e f _ h i j k l m n o p q r := w in
  mkWeatherData a b c d e f v h i j k l m n o p q r.

Definition setSunrise (v : string) (w : WeatherData) : WeatherData :=
  let 'mkWeatherData a b c d e f g h i j k l m _ o p q r := w in
  mkWeatherData a b c d e f g h i j k l m v o p q r.

Definition setSunset (v : string) (w : WeatherData) : WeatherData :=
  let 'mkWeatherData a b c d e f g h i j k l m n _ p q r := w in
  mkWeatherData a b c d e f g h i j k l m n v p q r.

Definition setLastUpdated (v : Time) (w : WeatherData) : WeatherData :=
  let 'mkWeatherData a b c d e f g h i j k l m n o p _ r := w in
  mkWeatherData a b c d e f g h i j k l m n o p v r.

Definition setHourlyForecast (v : option (list Hourly.HourlyForecast))
  (w : WeatherData) : WeatherData :=
  let 'mkWeatherData a b c d e f g h i j k l m n o p q _ := w in
  mkWeatherData a b c d e f g h i j k l m n o p q v.

(** Three hourly points and partial records that carry them. *)
Definition h1 : Hourly.HourlyForecast :=
  Hourly.mk "13" "d000" 4.5%float 4.5%float 3 0%float 0.
Definition h2 : Hourly.HourlyForecast :=
  Hourly.mk "14" "d000" 5%float 5%float 4 0.5%float 0.
Definition h3 : Hourly.HourlyForecast :=
  Hourly.mk "15" "n000" 3.5%float 3.5%float 2 0%float 0.

Definition withForecast (hs : option (list Hourly.HourlyForecast)) : WeatherData :=
  setHourlyForecast hs WeatherData_zero.

(** [[{hourlyForecast:[h1]}, {hourlyForecast:[]}]], the second slice empty
    and not nil ([[]HourlyForecast{}]). *)
Definition populatedThenEmpty : list WeatherData :=
  [withForecast (Some [h1]); withForecast (Some [])].

(** [[{hourlyForecast:[h1]}, {hourlyForecast:nil}]]. *)
Definition populatedThenNil : list WeatherData :=
  [withForecast (Some [h1]); withForecast None].

(** [[{hourlyForecast:[h1]}, {hourlyForecast:[h2,h3]}]]. *)
Definition populatedTwice : list WeatherData :=
  [withForecast (Some [h1]); withForecast (Some [h2; h3])].

(** Partial records of the specification's examples. *)
Definition withSummary (s : string) : WeatherData :=
  setWeatherSummary s WeatherData_zero.

Definition withTemperature (t : float) : WeatherData :=
  setTemperature t WeatherData_zero.

(** [{city:"Turku", temperatureMax:10}], [{temperature:3.0,
    observationHour:14}] and [{sunrise:"08:15", sunset:"17:40"}]. *)
Definition turkuForeca : WeatherData :=
  setCity "Turku" (setTemperatureMax 10%float WeatherData_zero).

Definition turkuAmpparit : WeatherData :=
  setTemperature 3%float (setObservationHour 14 WeatherData_zero).

Definition turkuMoisio : WeatherData :=
  setSunrise "08:15" (setSunset "17:40" WeatherData_zero).

(** ** City-name normalisation: [sanitizeCityName] *)

(** [strings.NewReplacer(oldnew...).Replace(s)] for old strings that are not
    empty (the only kind the source passes): the target is scanned from the
    left; at each position the pairs are tried in argument order, the first
    one whose old string starts there is replaced by its new string and the
    scan resumes after the match; a byte where no old string starts is
    copied. [skip] counts the bytes of a match still to be passed over. *)
Definition startsAt (s : string) (pair : string * string) : bool :=
  String.prefix (fst pair) s.

Fixpoint replaceFrom (oldnew : list (string * string)) (skip : nat) (s : string)
  : string :=
  match s with
  | EmptyString => EmptyString
  | String c s' =>
      match skip with
      | S k => replaceFrom oldnew k s'
      | O =>
          match List.find (startsAt s) oldnew with
          | Some (old, new) =>
              String.append new (replaceFrom oldnew (String.length old - 1) s')
          | None => String c (replaceFrom oldnew 0 s')
          end
      end
  end.

Definition Replace (oldnew : list (string * string)) (s : string) : string :=
  replaceFrom oldnew 0 s.

(** The pairs of the replacer of [sanitizeCityName]; the two old strings are
    two bytes long each in UTF-8 (C3 A4 and C3 B6). *)
Definition diacritics : list (string * string) :=
  [("ä"%string, "a"%string); ("ö"%string, "o"%string)].

Definition sanitizeCityName (city : string) : string := Replace diacritics city.

(** The same scan with the two-byte lookahead written out, for the proofs. *)
Definition byteC3 : ascii := ascii_of_nat 195.
Definition byteA4 : ascii := ascii_of_nat 164.
Definition byteB6 : ascii := ascii_of_nat 182.

Fixpoint foldDiacritics (s : string) : string :=
  match s with
  | EmptyString => EmptyString
  | String c s' =>
      match s' with
      | EmptyString => String c EmptyString
      | String c' s'' =>
          if Ascii.eqb c byteC3 && Ascii.eqb c' byteA4
          then String "a" (foldDiacritics s'')
          else if Ascii.eqb c byteC3 && Ascii.eqb c' byteB6
          then String "o" (foldDiacritics s'')
          else String c (foldDiacritics s')
      end
  end.

(** [strings.Contains(s, substr)]. *)
Fixpoint Contains (s substr : string) : bool :=
  String.prefix substr s
  || match s with
     | EmptyString => false
     | String _ s' => Contains s' substr
     end.

(** ** The cache and the facade: [GetWeatherData] *)

(** [time.Duration] is an int64 of nanoseconds; [Time.Sub], which
    [time.Since] ends in, saturates at its bounds. *)
Definition minDuration : Duration := - 2 ^ 63.
Definition maxDuration : Duration := 2 ^ 63 - 1.

Definition Sub (t u : Time) : Duration :=
  let d := t - u in
  if d <? minDuration then minDuration
  else if maxDuration <? d then maxDuration
  else d.

(** [time.Since(t)] when the clock reads [now]. *)
Definition Since (now t : Time) : Duration := Sub now t.

Definition Second : Duration := 1000000000.
Definition Minute : Duration := 60 * Second.

(** [cacheDuration = 5 * time.Minute]. *)
Definition cacheDuration : Duration := 5 * Minute.

(** [weatherSources]: the URL of each source, in the order of the source.
    What a source's [Parse] makes of the document it is given belongs to the
    world of a call, below. *)
Definition weatherSources : list string :=
  ["https://www.foreca.fi/Finland/"%string;
   "https://www.ampparit.com/saa/"%string;
   "http://www.moisio.fi/taivas/aurinko.php?paikka="%string].

(** What a call observes of the outside: the clock when [time.Since] reads
    it, the records received from [weatherDataChan] in the order of their
    arrival, and the clock when [time.Now] stamps the result. *)
Record World : Type := mkWorld {
  clockAtCheck : Time;
  received : list WeatherData;
  clockAtStamp : Time
}.

(** The results of a call, the cache it leaves and the URLs it has sent
    a GET to. *)
Record Outcome : Type := mkOutcome {
  weather : WeatherData;
  err : option string;
  cacheAfter : gmap string WeatherData;
  requested : list string
}.

(** The double quote, and [fmt.Errorf("No weather data found for city
    \"%s\"", city)]. *)
Definition dquote : string := String (ascii_of_nat 34) EmptyString.

Definition notFoundMessage (city : string) : string :=
  String.append "No weather data found for city "
    (String.append dquote (String.append city dquote)).

(** [found && time.Since(cachedData.LastUpdated) < cacheDuration], on the
    key [city]. A missing key reads as the zero value and [found = false]. *)
Definition cacheHit (cache : gmap string WeatherData) (city : string)
  (now : Time) : bool :=
  let cachedData := default WeatherData_zero (cache !! city) in
  let found := bool_decide (is_Some (cache !! city)) in
  found && (Since now (LastUpdated cachedData) <? cacheDuration).

(** [func GetWeatherData(city string) (weather WeatherData, err error)] on
    the cache [cache]. The parameter [city] is reassigned to its normalised
    form on the first line, and every later use reads that. *)
Definition GetWeatherData (cache : gmap string WeatherData) (city : string)
  (w : World) : Outcome :=
  let city := sanitizeCityName city in
  let cachedData := default WeatherData_zero (cache !! city) in
  if cacheHit cache city (clockAtCheck w) then
    mkOutcome cachedData None cache []
  else
    let urls := map (fun URL => String.append URL city) weatherSources in
    let finalWeatherData :=
      setLastUpdated (clockAtStamp w) (mergeWeatherData (received w)) in
    if String.eqb (City finalWeatherData) EmptyString then
      mkOutcome WeatherData_zero (Some (notFoundMessage city)) cache urls
    else
      mkOutcome finalWeatherData None (<[city := finalWeatherData]> cache) urls.

(** A world in which no source delivers a record, the clock reading [now]
    throughout. *)
Definition allSourcesFail (now : Time) : World := mkWorld now [] now.

(** The merged record of the three Turku partials as a cache entry stamped
    at [1000], and a world whose clock reads 299 seconds later. *)
Definition turkuCached : WeatherData :=
  setLastUpdated 1000
    (mergeWeatherData [turkuForeca; turkuAmpparit; turkuMoisio]).

Definition turkuCache : gmap string WeatherData := {[ "Turku"%string := turkuCached ]}.

Definition soonAfter : World := mkWorld (1000 + 299 * Second) [] (1000 + 299 * Second).

(** A world whose clock reads exactly the ttl after that stamp. *)
Definition atTheTtl : World := mkWorld (1000 + 300 * Second) [] (1000 + 300 * Second).

(** ** The fan-out/fan-in coordinator inside [GetWeatherData] *)

(** The goroutine of one source: launched and not yet at its send or at a
    return ([Fetching]); past [weatherDataChan <- data] with its deferred
    [wg.Done()] still to run ([Sent]); ended, [wg.Done()] executed, having
    sent the record or nothing ([Finished]). *)
Inductive Fetcher : Type :=
| Fetching
| Sent (data : WeatherData)
| Finished (sent : option WeatherData).

(** The goroutine [wg.Wait(); close(weatherDataChan)]. *)
Inductive Closer : Type := Waiting | Woken | Exited.

(** The calling goroutine: in the [for data := range weatherDataChan] loop,
    or past it with the result of [mergeWeatherData(weatherData)]. *)
Inductive Caller : Type :=
| Collecting
| Merged (finalWeatherData : WeatherData).

(** The shared state of one request: the goroutines, the counter of [wg],
    the buffer of [weatherDataChan] (capacity [len(weatherSources)]) and
    whether it is closed, and the caller's slice [weatherData]. *)
Record Coordinator : Type := mkCoordinator {
  fetchers : list Fetcher;
  wg : Z;
  buffer : list WeatherData;
  closed : bool;
  closer : Closer;
  weatherData : list WeatherData;
  caller : Caller
}.

(** The state after [wg.Add(len(weatherSources))] and the [go] statements.
    A goroutine that has not run yet is as one that is [Fetching]. *)
Definition launch (n : nat) : Coordinator :=
  {| fetchers := replicate n Fetching; wg := Z.of_nat n; buffer := [];
     closed := false; closer := Waiting; weatherData := []; caller := Collecting |}.

(** What the scheduler can let happen next. *)
Inductive Event : Type :=
| FetcherFails (i : nat)
| FetcherSends (i : nat) (data : WeatherData)
| FetcherReturns (i : nat)
| CloserWakes
| CloserCloses
| CallerReceives
| CallerMerges.

Definition step (s : Coordinator) (e : Event) : option Coordinator :=
  match e with
  | FetcherFails i =>
      (* [return] on an error of http.Get, of the document reader or of
         Parse; the deferred [wg.Done()] runs *)
      match fetchers s !! i with
      | Some Fetching =>
          Some (mkCoordinator (<[i := Finished None]> (fetchers s)) (wg s - 1)
                  (buffer s) (closed s) (closer s) (weatherData s) (caller s))
      | _ => None
      end
  | FetcherSends i data =>
      (* [weatherDataChan <- data]: proceeds while the buffer has room *)
      match fetchers s !! i with
      | Some Fetching =>
          if (length (buffer s) <? length (fetchers s))%nat
          then Some (mkCoordinator (<[i := Sent data]> (fetchers s)) (wg s)
                       (buffer s ++ [data]) (closed s) (closer s)
                       (weatherData s) (caller s))
          else None
      | _ => None
      end
  | FetcherReturns i =>
      (* the end of the goroutine after its send; the deferred
         [wg.Done()] runs *)
      match fetchers s !! i with
      | Some (Sent data) =>
          Some (mkCoordinator (<[i := Finished (Some data)]> (fetchers s))
                  (wg s - 1) (buffer s) (closed s) (closer s)
                  (weatherData s) (caller s))
      | _ => None
      end
  | CloserWakes =>
      (* [wg.Wait()] returns once the counter is zero *)
      match closer s with
      | Waiting =>
          if wg s =? 0
          then Some (mkCoordinator (fetchers s) (wg s) (buffer s) (closed s)
                       Woken (weatherData s) (caller s))
          else None
      | _ => None
      end
  | CloserCloses =>
      (* [close(weatherDataChan)] *)
      match closer s with
      | Woken =>
          Some (mkCoordinator (fetchers s) (wg s) (buffer s) true
                  Exited (weatherData s) (caller s))
      | _ => None
      end
  | CallerReceives =>
      (* one iteration of the range loop:
         [weatherData = append(weatherData, data)] *)
      match caller s, buffer s with
      | Collecting, data :: rest =>
          Some (mkCoordinator (fetchers s) (wg s) rest (closed s) (closer s)
                  (weatherData s ++ [data]) (caller s))
      | _, _ => None
      end
  | CallerMerges =>
      (* the range loop ends when the channel is closed and drained; then
         [finalWeatherData := mergeWeatherData(weatherData)] *)
      match caller s, buffer s with
      | Collecting, [] =>
          if closed s
          then Some (mkCoordinator (fetchers s) (wg s) (buffer s) (closed s)
                       (closer s) (weatherData s)
                       (Merged (mergeWeatherData (weatherData s))))
          else None
      | _, _ => None
      end
  end.

(** A schedule run from a state; [None] when an event is not enabled. *)
Fixpoint run (events : list Event) (s : Coordinator) : option Coordinator :=
  match events with
  | [] => Some s
  | e :: events' =>
      match step s e with
      | Some s' => run events' s'
      | None => None
      end
  end.

(** The states a request can be in: those some schedule leads to from the
    launch of one fetcher per source. *)
Definition reachable (s : Coordinator) : Prop :=
  exists events : list Event, run events (launch (length weatherSources)) = Some s.

Definition terminated (f : Fetcher) : bool :=
  match f with Finished _ => true | _ => false end.

(** The record a fetcher has put on the channel, if any. *)
Definition delivered (f : Fetcher) : option WeatherData :=
  match f with
  | Fetching => None
  | Sent data => Some data
  | Finished sent => sent
  end.

(** The fetchers still to call [wg.Done()]. *)
Definition pending (fs : list Fetcher) : nat :=
  length (List.filter (fun f => negb (terminated f)) fs).

(** What the wait group and the channel maintain along every schedule. *)
Record coordinated (n : nat) (s : Coordinator) : Prop := {
  co_sources : length (fetchers s) = n;
  co_counter : wg s = Z.of_nat (pending (fetchers s));
  co_woken : closer s <> Waiting -> wg s = 0;
  co_closed : closed s = true -> closer s = Exited;
  co_merged : forall md, caller s = Merged md ->
                closed s = true /\ buffer s = []
                /\ md = mergeWeatherData (weatherData s);
  co_records : weatherData s ++ buffer s ≡ₚ omap delivered (fetchers s)
}.

(** A schedule for the three sources: the first source fails, the second
    delivers the Ampparit record, the third the Moisio record. *)
Definition sampleSchedule : list Event :=
  [FetcherSends 2 turkuMoisio; FetcherFails 0; CallerReceives;
   FetcherSends 1 turkuAmpparit; FetcherReturns 2; FetcherReturns 1;
   CloserWakes; CallerReceives; CloserCloses; CallerMerges].

Definition sampleEnd : Coordinator :=
  mkCoordinator
    [Finished None; Finished (Some turkuAmpparit); Finished (Some turkuMoisio)]
    0 [] true Exited [turkuMoisio; turkuAmpparit]
    (Merged (mergeWeatherData [turkuMoisio; turkuAmpparit])).

(** ** The plain-text formatter: [weatherTextHandler] *)

(** What Go's [fmt] prints for the verbs the formatter uses: [%.1f] of a
    float64, [%d] and [%02d] of an int. They belong to Go's library, not
    to the program, and are parameters of the embedding. *)
Record Verbs : Type := mkVerbs {
  fmt_1f : float -> string;
  fmt_d : Z -> string;
  fmt_02d : Z -> string
}.

(** The line feed of ["\n"]. *)
Definition nl : string := String (ascii_of_nat 10) EmptyString.

Section TextFormatter.
Variable verbs : Verbs.

(** [func temperatureWithSign(temperature float64) string]. *)
Definition temperatureWithSign (temperature : float) : string :=
  if PrimFloat.ltb 0%float temperature
  then "+" +:+ fmt_1f verbs temperature +:+ "°C"
  else fmt_1f verbs temperature +:+ "°C".

(** The results of the successive [fmt.Sprintf] calls of
    [weatherTextHandler], in the order of the source. *)
Definition weatherTextPieces (weather : WeatherData) : list string :=
  [ "Sää " +:+ City weather +:+ " (Klo. "
      +:+ fmt_02d verbs (ObservationHour weather) +:+ ")" +:+ nl;
    WeatherSummary weather +:+ nl +:+ nl;
    "Lämpötila: " +:+ temperatureWithSign (Temperature weather)
      +:+ " (Tuntuu kuin "
      +:+ temperatureWithSign (TemperatureFeelsLike weather) +:+ ")" +:+ nl;
    "Päivän alin: " +:+ temperatureWithSign (TemperatureMin weather) +:+ nl;
    "Päivän ylin: " +:+ temperatureWithSign (TemperatureMin weather) +:+ nl;
    "Sadetta: " +:+ fmt_1f verbs (Rainfall weather) +:+ " mm" +:+ nl;
    "Lunta: " +:+ fmt_1f verbs (Snowfall weather) +:+ " cm" +:+ nl;
    "Tuuli: " +:+ fmt_d verbs (WindSpeed weather) +:+ " m/s" +:+ nl;
    "Huomenna: " +:+ temperatureWithSign (TemperatureTomorrow weather)
      +:+ " (Alin: "
      +:+ temperatureWithSign (TemperatureMinTomorrow weather) +:+ ")" +:+ nl;
    "Auringonnousu: " +:+ Sunrise weather +:+ nl
      +:+ "Auringonlasku: " +:+ Sunset weather +:+ nl;
    "Päivän pituus: " +:+ DayLength weather +:+ nl ].

(** The body the handler writes: [output := ...] followed by the
    [output += ...] of the remaining pieces. *)
Definition weatherTextOutput (weather : WeatherData) : string :=
  fold_left String.append (weatherTextPieces weather) EmptyString.
End TextFormatter.

(** Two records that differ in [TemperatureMax] only. *)
Definition sameButTemperatureMax (w w' : WeatherData) : Prop :=
  setTemperatureMax 0%float w = setTemperatureMax 0%float w'.

(** A stand-in for the verbs that prints every float as the sign of its
    comparison with zero and every int as "n": enough to run the formatter
    on a sample. *)
Definition sampleVerbs : Verbs :=
  mkVerbs (fun x => if PrimFloat.ltb 0%float x then "pos"%string else "nonpos"%string)
          (fun _ => "n"%string) (fun _ => "nn"%string).

(** ** Further definitions: partial records that do not compete *)

Definition allStringFields : list StringField :=
  [FCity; FWeatherSummary; FSunrise; FSunset; FDayLength].

Definition allFloatFields : list FloatField :=
  [FTemperatureMax; FTemperatureMin; FRainfall; FSnowfall; FTemperature;
   FTemperatureFeelsLike; FTemperatureTomorrow; FTemperatureMinTomorrow].

Definition allIntFields : list IntField := [FWindSpeed; FObservationHour].

(** No field that the loop of [mergeWeatherData] would take from both
    records: for each merged field, at most one of [a] and [b] passes the
    test of the loop ([!= ""], [!= 0], [!= nil]). *)
Definition disjointFields (a b : WeatherData) : bool :=
  forallb (fun f => negb (nonEmptyString (getString f a)
                           && nonEmptyString (getString f b))) allStringFields
  && forallb (fun f => negb (nonZeroFloat64 (getFloat f a)
                              && nonZeroFloat64 (getFloat f b))) allFloatFields
  && forallb (fun f => negb (nonZeroInt (getInt f a)
                              && nonZeroInt (getInt f b))) allIntFields
  && negb (nonNil (HourlyForecast a) && nonNil (HourlyForecast b)).

Fixpoint pairwiseDisjoint (data : list WeatherData) : bool :=
  match data with
  | [] => true
  | d :: data' => forallb (disjointFields d) data' && pairwiseDisjoint data'
  end.

(** A world in which one record with a city arrives, and a cache-free call
    for "Hyvinkää" in it. *)
Definition oneRecordArrives : World := mkWorld 1000 [turkuForeca] 1000.

(** The work left in a request, counted in events: a fetcher that has not
    sent can still send and return, the closer wakes and closes, the caller
    receives what is buffered and merges. *)
Definition fetcherWork (f : Fetcher) : nat :=
  match f with Fetching => 3 | Sent _ => 1 | Finished _ => 0 end.

Definition closerWork (c : Closer) : nat :=
  match c with Waiting => 2 | Woken => 1 | Exited => 0 end.

Definition callerWork (c : Caller) : nat :=
  match c with Collecting => 1 | Merged _ => 0 end.

Definition workLeft (s : Coordinator) : nat :=
  list_sum (map fetcherWork (fetchers s)) + closerWork (closer s)
  + length (buffer s) + callerWork (caller s).

(** ** The parsers of the three sources *)

(** What the parsers use of Go's library: [strconv.ParseFloat(s, 64)] and
    [strconv.Atoi(s)], [None] standing for a non-nil error, and
    [strings.TrimSpace]. They are parameters of the embedding. *)
Record GoStrings : Type := mkGoStrings {
  ParseFloat : string -> option float;
  Atoi : string -> option Z;
  TrimSpace : string -> string
}.

(** What the parsers use of a goquery selection [s], by selector:
    [s.Find(sel).First().Text()], [s.Find(sel).Text()] and
    [s.Find(sel).First().AttrOr(attr, dflt)]. *)
Record Element : Type := mkElement {
  elFirstText : string -> string;
  elText : string -> string;
  elFirstAttrOr : string -> string -> string -> string
}.

(** The same of a document, and the elements of the selection
    [doc.Find(sel)] in document order. *)
Record Document : Type := mkDocument {
  firstText : string -> string;
  allText : string -> string;
  findAll : string -> list Element
}.

(** [Selection.Slice(start, end)] with [0 <= start <= end], that is
    [s.Nodes[start:end]], on a selection of the given elements: the
    elements from [start] up to [end], when the selection has that many;
    [None] is the run-time panic of a selection that is shorter than
    [end]. *)
Definition Slice {A : Type} (nodes : list A) (start stop : nat)
  : option (list A) :=
  if (stop <=? length nodes)%nat
  then Some (firstn (stop - start) (skipn start nodes))
  else None.

(** How a call of a parser, and the goroutine around it, can end: with a
    record, with an error (the goroutine logs it and sends nothing), or
    with a panic, which no [recover] catches and which ends the program. *)
Inductive Attempt : Type :=
| Gives (data : WeatherData)
| GivesError
| Panics.

Definition attempt (result : option WeatherData) : Attempt :=
  match result with
  | Some data => Gives data
  | None => GivesError
  end.

Definition given (a : Attempt) : option WeatherData :=
  match a with
  | Gives data => Some data
  | _ => None
  end.

Definition panicked (a : Attempt) : bool :=
  match a with
  | Panics => true
  | _ => false
  end.

Definition setTemperatureFeelsLike (v : float) (w : WeatherData) : WeatherData :=
  let 'mkWeatherData a b c d _ f g h i j k l m n o p q r := w in
  mkWeatherData a b c d v f g h i j k l m n o p q r.

Definition setRainfall (v : float) (w : WeatherData) : WeatherData :=
  let 'mkWeatherData a b c d e f g _ i j k l m n o p q r := w in
  mkWeatherData a b c d e f g v i j k l m n o p q r.

Definition setWindSpeed (v : Z) (w : WeatherData) : WeatherData :=
  let 'mkWeatherData a b c d e f g h i _ k l m n o p q r := w in
  mkWeatherData a b c d e f g h i v k l m n o p q r.

Definition setTemperatureTomorrow (v : float) (w : WeatherData) : WeatherData :=
  let 'mkWeatherData a b c d e f g h i j k _ m n o p q r := w in
  mkWeatherData a b c d e f g h i j k v m n o p q r.

Definition setTemperatureMinTomorrow (v : float) (w : WeatherData) : WeatherData :=
  let 'mkWeatherData a b c d e f g h i j k l _ n o p q r := w in
  mkWeatherData a b c d e f g h i j k l v n o p q r.

Definition setDayLength (v : string) (w : WeatherData) : WeatherData :=
  let 'mkWeatherData a b c d e f g h i j k l m n o _ q r := w in
  mkWeatherData a b c d e f g h i j k l m n o v q r.

(** [append(s, x)] on a slice that may be nil. *)
Definition appendSlice {A : Type} (s : option (list A)) (x : A) : option (list A) :=
  Some (default [] s ++ [x]).

(** [strings.Split(s, sep)[0]] for a separator that is not empty: the part
    of [s] before the first occurrence of [sep], all of [s] when there is
    none. *)
Fixpoint splitFirst (s sep : string) : string :=
  if String.prefix sep s then EmptyString
  else match s with
       | EmptyString => EmptyString
       | String c s' => String c (splitFirst s' sep)
       end.

(** The pairs of the replacer of [cleanTemperatureString]; the degree sign
    is two bytes long in UTF-8 (C2 B0). *)
Definition temperatureUnits : list (string * string) :=
  [("°"%string, EmptyString); ("C"%string, EmptyString);
   ("F"%string, EmptyString); (","%string, "."%string)].

(** The scan of that replacer with the two-byte lookahead written out, for
    the proofs. *)
Definition byteC2 : ascii := ascii_of_nat 194.
Definition byteB0 : ascii := ascii_of_nat 176.

Definition stripUnit (c : ascii) (rest : string) : string :=
  if Ascii.eqb c "C" then rest
  else if Ascii.eqb c "F" then rest
  else if Ascii.eqb c "," then String "." rest
  else String c rest.

Fixpoint stripUnits (s : string) : string :=
  match s with
  | EmptyString => EmptyString
  | String c s' =>
      match s' with
      | EmptyString => stripUnit c EmptyString
      | String c' s'' =>
          if Ascii.eqb c byteC2 && Ascii.eqb c' byteB0
          then stripUnits s''
          else stripUnit c (stripUnits s')
      end
  end.

(** The byte [strings.Replace(s, ",", ".", -1)] writes for a byte of [s]. *)
Definition commaAsPoint (c : ascii) : ascii :=
  if Ascii.eqb c "," then "."%char else c.

Section Parsers.
Variable lib : GoStrings.

(** [func cleanTemperatureString(temperature string) (temp float64, err
    error)]. *)
Definition cleanTemperatureString (temperature : string) : option float :=
  let temperature := Replace temperatureUnits temperature in
  let temperature := TrimSpace lib temperature in
  ParseFloat lib temperature.

(** [func parseForecaData(doc *goquery.Document) (data WeatherData, err
    error)]; [None] is the return of [WeatherData{}] with an error. *)
Definition parseForecaData (doc : Document) : option WeatherData :=
  let data := WeatherData_zero in
  let tempMaxText :=
    firstText doc "#dailybox > div:nth-child(1) > a > div > p.tx > abbr" in
  match cleanTemperatureString tempMaxText with
  | None => None
  | Some tempMax =>
  let data := setTemperatureMax tempMax data in
  let tempMinText :=
    firstText doc "#dailybox > div:nth-child(1) > a > div > p.tn > abbr" in
  match cleanTemperatureString tempMinText with
  | None => None
  | Some tempMin =>
  let data := setTemperatureMin tempMin data in
  let windSpeedText :=
    firstText doc "#dailybox > div:nth-child(1) > a > div > p.w > span > em" in
  match Atoi lib windSpeedText with
  | None => None
  | Some windSpeed =>
  let data := setWindSpeed windSpeed data in
  let weatherSummary := firstText doc ".today .day .txt" in
  Some (setWeatherSummary (splitFirst weatherSummary ".") data)
  end end end.

(** The closure passed to [hours.Each] in [parseAmpparitData], on the
    record [data] it appends to: an element one of whose numbers does not
    parse is passed over. *)
Definition hourlyPoint (data : WeatherData) (s : Element) : WeatherData :=
  let tempString := elFirstText s ".weather-temperature > span" in
  match cleanTemperatureString tempString with
  | None => data
  | Some temp =>
  let tempFLString := elFirstText s ".weather-temperature > span" in
  match cleanTemperatureString tempFLString with
  | None => data
  | Some tempFL =>
  let windSpeedStr := elFirstText s ".weather-wind > .weather-value" in
  match Atoi lib windSpeedStr with
  | None => data
  | Some windSpeed =>
  let rainfallStr := elFirstText s ".weather-precipitation-amount" in
  let rainfallStr := Replace [(" mm"%string, EmptyString)] rainfallStr in
  match ParseFloat lib rainfallStr with
  | None => data
  | Some rainfall =>
  let weatherSymbolText :=
    elFirstAttrOr s ".weather-symbol > span" "class" "invalid" in
  let weatherSymbol :=
    if String.eqb weatherSymbolText "d000" then "☀️"%string
    else if String.eqb weatherSymbolText "n000" then "🌜"%string
    else "❓"%string in
  setHourlyForecast
    (appendSlice (HourlyForecast data)
       (Hourly.mk (elText s "time") weatherSymbol temp tempFL windSpeed
          rainfall 0))
    data
  end end end end.

(** [func parseAmpparitData(doc *goquery.Document) (data WeatherData, err
    error)]. The returns with an error that stand before the hourly
    forecast are taken before [Slice(0, 24)] is reached. *)
Definition parseAmpparitData (doc : Document) : Attempt :=
  let data := WeatherData_zero in
  let city := allText doc ".current-weather__location" in
  if String.eqb city EmptyString then GivesError else
  let data := setCity city data in
  let temperatureText := firstText doc "span.current-weather__temperature" in
  match cleanTemperatureString temperatureText with
  | None => GivesError
  | Some temperature =>
  let data := setTemperature temperature data in
  let temperatureFeelsLikeText :=
    firstText doc "span.weather-lighter.weather-temperature-feelslike" in
  match cleanTemperatureString temperatureFeelsLikeText with
  | None => GivesError
  | Some temperatureFeelsLike =>
  let data := setTemperatureFeelsLike temperatureFeelsLike data in
  let rainfallText :=
    firstText doc ".current-weather__precipitation .weather-value" in
  let rainfallText := Replace [(" mm"%string, EmptyString)] rainfallText in
  match ParseFloat lib rainfallText with
  | None => GivesError
  | Some rainfall =>
  let data := setRainfall rainfall data in
  let observationHour :=
    firstText doc "ol > li:nth-child(1) > div.weather-time > time" in
  match Atoi lib observationHour with
  | None => GivesError
  | Some observationHourInt =>
  let data := setObservationHour observationHourInt data in
  match Slice (findAll doc ".weather-hour-selector ol > li") 0 24 with
  | None => Panics
  | Some hours =>
  let data := fold_left hourlyPoint hours data in
  let temperatureTomorrowText :=
    firstText doc ".weekly-weather-list-wrapper:nth-child(2) .weather-temperature" in
  match cleanTemperatureString temperatureTomorrowText with
  | None => GivesError
  | Some temperatureTomorrow =>
  let data := setTemperatureTomorrow temperatureTomorrow data in
  let temperatureTomorrowMinText :=
    firstText doc
      ".weekly-weather-list-wrapper:nth-child(2) .weather-min-temperature" in
  let temperatureTomorrowMinText :=
    Replace [("alin "%string, EmptyString)] temperatureTomorrowMinText in
  match cleanTemperatureString temperatureTomorrowMinText with
  | None => GivesError
  | Some temperatureTomorrowMin =>
  let data := setTemperatureMinTomorrow temperatureTomorrowMin data in
  Gives (setWeatherSummary EmptyString data)
  end end end end end end end.

(** [func parseMoisioData(doc *goquery.Document) (data WeatherData, err
    error)]: it has no failing return. *)
Definition parseMoisioData (doc : Document) : option WeatherData :=
  let data := WeatherData_zero in
  let data := setSunrise (firstText doc "td.tbl0:nth-child(4)") data in
  let data := setSunset (firstText doc "td.tbl0:nth-child(5)") data in
  let data := setDayLength (firstText doc "td.tbl0:nth-child(6)") data in
  Some data.

(** The [Parse] fields of [weatherSources], in the order of the source. *)
Definition weatherParsers : list (Document -> Attempt) :=
  [fun doc => attempt (parseForecaData doc);
   parseAmpparitData;
   fun doc => attempt (parseMoisioData doc)].

(** The body of the goroutine of one source: [http.Get(source.URL + city)]
    and [goquery.NewDocumentFromReader], here [web], give the document or
    fail; [source.Parse(doc)] gives the record, fails or panics; a failure
    sends nothing. *)
Definition fetchSource (web : string -> option Document) (city : string)
  (source : string * (Document -> Attempt)) : Attempt :=
  match web (String.append (fst source) city) with
  | None => GivesError
  | Some doc => snd source doc
  end.

(** The records the three goroutines send for [city], in the order of the
    sources; [None] when one of them panics, and the request with the
    program ends without a result. *)
Definition sentRecords (web : string -> option Document) (city : string)
  : option (list WeatherData) :=
  let attempts :=
    map (fetchSource web city) (zip weatherSources weatherParsers) in
  if existsb panicked attempts then None else Some (omap given attempts).
End Parsers.

(** What every hourly point that [hourlyPoint] appends looks like: the
    feels-like temperature is read from the selector of the temperature,
    the rain chance is the constant 0, the symbol one of three. *)
Definition appendedPoint (p : Hourly.HourlyForecast) : Prop :=
  Hourly.TemperatureFeelsLike p = Hourly.Temperature p
  /\ Hourly.RainChance p = 0
  /\ (Hourly.WeatherSymbol p = "☀️"%string
      \/ Hourly.WeatherSymbol p = "🌜"%string
      \/ Hourly.WeatherSymbol p = "❓"%string).

Definition appendedPoints (s : option (list Hourly.HourlyForecast)) : Prop :=
  match s with
  | None => True
  | Some hs => hs <> [] /\ Forall appendedPoint hs
  end.

(** The fields a successful run of each parser can have set. *)
Definition forecaRecord (d : WeatherData) : Prop :=
  exists tempMax tempMin windSpeed summary,
    d = setWeatherSummary summary
          (setWindSpeed windSpeed
             (setTemperatureMin tempMin
                (setTemperatureMax tempMax WeatherData_zero))).

Definition ampparitRecord (d : WeatherData) : Prop :=
  exists city temperature feelsLike rainfall hour hourly tomorrow tomorrowMin,
    city <> EmptyString
    /\ appendedPoints hourly
    /\ d = setWeatherSummary EmptyString
             (setTemperatureMinTomorrow tomorrowMin
                (setTemperatureTomorrow tomorrow
                   (setHourlyForecast hourly
                      (setObservationHour hour
                         (setRainfall rainfall
                            (setTemperatureFeelsLike feelsLike
                               (setTemperature temperature
                                  (setCity city WeatherData_zero)))))))).

Definition moisioRecord (d : WeatherData) : Prop :=
  exists sunrise sunset dayLength,
    d = setDayLength dayLength
          (setSunset sunset (setSunrise sunrise WeatherData_zero)).

(** The record a goroutine sends, as a list: nothing on a failure. *)
Definition optionList {A : Type} (o : option A) : list A :=
  match o with Some x => [x] | None => [] end.

(** Stand-ins for the library and for the three pages, to run the parsers
    on: numbers are recognised from a short table, space is not trimmed. *)
Definition sampleStrings : GoStrings :=
  mkGoStrings
    (fun s => if String.eqb s "5.5" then Some 5.5%float
              else if String.eqb s "-2" then Some (-2)%float
              else if String.eqb s "0.5" then Some 0.5%float
              else None)
    (fun s => if String.eqb s "4" then Some 4
              else if String.eqb s "14" then Some 14
              else None)
    (fun s => s).

Definition sampleHour : Element :=
  mkElement
    (fun sel => if String.eqb sel ".weather-temperature > span" then "5,5°"%string
                else if String.eqb sel ".weather-wind > .weather-value" then "4"%string
                else if String.eqb sel ".weather-precipitation-amount" then "0.5 mm"%string
                else EmptyString)
    (fun sel => if String.eqb sel "time" then "14"%string else EmptyString)
    (fun _ _ dflt => dflt).

Definition brokenHour : Element :=
  mkElement (fun _ => EmptyString) (fun _ => EmptyString) (fun _ _ dflt => dflt).

Definition forecaPage : Document :=
  mkDocument
    (fun sel =>
       if String.eqb sel "#dailybox > div:nth-child(1) > a > div > p.tx > abbr"
       then "5,5°C"%string
       else if String.eqb sel "#dailybox > div:nth-child(1) > a > div > p.tn > abbr"
       then "-2°C"%string
       else if String.eqb sel "#dailybox > div:nth-child(1) > a > div > p.w > span > em"
       then "4"%string
       else if String.eqb sel ".today .day .txt"
       then "Poutaa. Tuuli heikkoa."%string
       else EmptyString)
    (fun _ => EmptyString) (fun _ => []).

(** The current fields of a page of Ampparit, by selector. *)
Definition ampparitFields (sel : string) : string :=
  if String.eqb sel ".current-weather__precipitation .weather-value"
  then "0.5 mm"%string
  else if String.eqb sel "ol > li:nth-child(1) > div.weather-time > time"
  then "14"%string
  else if String.eqb sel
            ".weekly-weather-list-wrapper:nth-child(2) .weather-min-temperature"
  then "alin -2°"%string
  else "5,5°"%string.

Definition ampparitCity (sel : string) : string :=
  if String.eqb sel ".current-weather__location" then "Turku"%string
  else EmptyString.

(** A page with twenty-five hour elements, the first of them unreadable,
    and the same page with two hour elements only. *)
Definition ampparitPage : Document :=
  mkDocument ampparitFields ampparitCity
    (fun _ => brokenHour :: replicate 24 sampleHour).

Definition shortAmpparitPage : Document :=
  mkDocument ampparitFields ampparitCity (fun _ => [sampleHour; brokenHour]).

Definition emptyPage : Document :=
  mkDocument (fun _ => EmptyString) (fun _ => EmptyString) (fun _ => []).

(** Every source answers with its page; and every source answers with an
    empty page. *)
Definition sampleWeb (url : string) : option Document :=
  if String.eqb url "https://www.foreca.fi/Finland/Turku" then Some forecaPage
  else if String.eqb url "https://www.ampparit.com/saa/Turku" then Some ampparitPage
  else if String.eqb url "http://www.moisio.fi/taivas/aurinko.php?paikka=Turku"
  then Some emptyPage
  else None.

(** The same web with the short page of Ampparit. *)
Definition shortWeb (url : string) : option Document :=
  if String.eqb url "https://www.ampparit.com/saa/Turku" then Some shortAmpparitPage
  else sampleWeb url.

(** The records sent for Turku on the sample web, and the world of a call
    in which they arrive in the reverse of the order of the sources. *)
Definition turkuSent : list WeatherData :=
  default [] (sentRecords sampleStrings sampleWeb "Turku").

Definition turkuArrivals : World := mkWorld 1000 (rev turkuSent) 1000.

(** ** The handler of [/w] and [/api]: [weatherHandler] *)

(** What a handler does to its [http.ResponseWriter], in the order of the
    calls: [w.Header().Set(key, value)], [w.WriteHeader(code)],
    [w.Write(body)] and [http.Error(w, message, code)]. *)
Inductive Effect : Type :=
| SetHeader (key value : string)
| WriteHeader (code : Z)
| Write (body : string)
| HttpError (message : string) (code : Z).

Definition StatusOK : Z := 200.
Definition StatusBadRequest : Z := 400.
Definition StatusInternalServerError : Z := 500.

(** What a request meets outside the program: [json.Marshal], which yields
    the encoding or the text of an error, and the error of [w.Write], if
    it has one. *)
Record Responder : Type := mkResponder {
  Marshal : WeatherData -> string + string;
  writeError : option string
}.

(** The three results of one handler call: the effects on the response
    writer, the cache it leaves and the URLs it has sent a GET to. *)
Record Handled : Type := mkHandled {
  effects : list Effect;
  cacheLeft : gmap string WeatherData;
  fetched : list string
}.

Section Handlers.
Variable verbs : Verbs.
Variable out : Responder.

(** The tail common to the two writers: [if err != nil { http.Error(...) }]
    on the error of [w.Write]. *)
Definition afterWrite : list Effect :=
  match writeError out with
  | Some e => [HttpError e StatusInternalServerError]
  | None => []
  end.

(** [func weatherTextHandler(w http.ResponseWriter, weather WeatherData)]. *)
Definition weatherTextHandler (weather : WeatherData) : list Effect :=
  SetHeader "Content-Type" "text/plain"
  :: Write (weatherTextOutput verbs weather) :: afterWrite.

(** [func weatherJSONHandler(w http.ResponseWriter, weather WeatherData)]. *)
Definition weatherJSONHandler (weather : WeatherData) : list Effect :=
  match Marshal out weather with
  | inr e => [HttpError e StatusInternalServerError]
  | inl jsonData =>
      SetHeader "Content-Type" "application/json" :: Write jsonData :: afterWrite
  end.

(** [func weatherHandler(w http.ResponseWriter, r *http.Request)];
    [query key] is [r.URL.Query().Get(key)], empty for a missing key. *)
Definition weatherHandler (cache : gmap string WeatherData)
  (query : string -> string) (w : World) : Handled :=
  let city := query "city"%string in
  if String.eqb city EmptyString then
    mkHandled [HttpError "Missing 'city' parameter" StatusBadRequest] cache []
  else
    let o := GetWeatherData cache city w in
    match err o with
    | Some e =>
        mkHandled [HttpError e StatusInternalServerError]
          (cacheAfter o) (requested o)
    | None =>
        let format := query "format"%string in
        mkHandled
          (WriteHeader StatusOK
           :: (if String.eqb format "text" then weatherTextHandler (weather o)
               else weatherJSONHandler (weather o)))
          (cacheAfter o) (requested o)
    end.
End Handlers.

(** A stand-in for the encoder, and the query [city=Turku&format=text]. *)
Definition sampleResponder : Responder :=
  mkResponder (fun w => inl (City w)) None.

Definition turkuTextQuery (key : string) : string :=
  if String.eqb key "city" then "Turku"%string
  else if String.eqb key "format" then "text"%string
  else EmptyString.

Definition formatOnlyQuery (key : string) : string :=
  if String.eqb key "format" then "text"%string else EmptyString.

(** The fields of a record the plain-text writer reads: the record with
    [TemperatureMax], [RainChance], [LastUpdated] and [HourlyForecast] set
    to their zero values. *)
Definition setRainChance (v : Z) (w : WeatherData) : WeatherData :=
  let 'mkWeatherData a b c d e f g h i j _ l m n o p q r := w in
  mkWeatherData a b c d e f g h i j v l m n o p q r.

Definition textFields (w : WeatherData) : WeatherData :=
  setHourlyForecast None
    (setLastUpdated 0 (setRainChance 0 (setTemperatureMax 0%float w))).

(** ** Properties *)

(** *** The merger *)

Lemma mergeFrom_app md l1 l2 :
  mergeFrom md (l1 ++ l2) = mergeFrom (mergeFrom md l1) l2.
Proof. unfold mergeFrom. apply fold_left_app. Qed.

Lemma mergeFrom_cons md d l : mergeFrom md (d :: l) = mergeFrom (mergeStep md d) l.
Proof. reflexivity. Qed.

Lemma mergeWeatherData_snoc l d :
  mergeWeatherData (l ++ [d]) = mergeStep (mergeWeatherData l) d.
Proof. unfold mergeWeatherData. rewrite mergeFrom_app. reflexivity. Qed.

Lemma lastSuch_snoc {A : Type} (p : A -> bool) dflt l x :
  lastSuch p dflt (l ++ [x]) = if p x then x else lastSuch p dflt l.
Proof.
  induction l as [|y l IH]; simpl.
  - reflexivity.
  - rewrite existsb_app; simpl. rewrite orb_false_r, IH.
    destruct (p x) eqn:Hx.
    + rewrite orb_true_r. reflexivity.
    + rewrite orb_false_r. reflexivity.
Qed.

Lemma firstSuch_app {A : Type} (p : A -> bool) dflt l1 l2 :
  firstSuch p dflt (l1 ++ l2) =
  if existsb p l1 then firstSuch p dflt l1 else firstSuch p dflt l2.
Proof.
  induction l1 as [|y l1 IH]; simpl.
  - reflexivity.
  - destruct (p y); simpl; [reflexivity | exact IH].
Qed.

Lemma firstSuch_none {A : Type} (p : A -> bool) dflt l :
  existsb p l = false -> firstSuch p dflt l = dflt.
Proof.
  induction l as [|y l IH]; simpl; [reflexivity|].
  destruct (p y); simpl; [discriminate | exact IH].
Qed.

Lemma firstSuch_some {A : Type} (p : A -> bool) dflt l :
  existsb p l = true -> p (firstSuch p dflt l) = true.
Proof.
  induction l as [|y l IH]; simpl; [discriminate|].
  destruct (p y) eqn:Hy; simpl; [intros _; exact Hy | exact IH].
Qed.

Lemma nonEmptyString_false s : nonEmptyString s = false -> s = EmptyString.
Proof.
  unfold nonEmptyString. intros H. apply negb_false_iff in H.
  apply String.eqb_eq in H. exact H.
Qed.

Lemma firstNonEmpty_snoc l x :
  firstNonEmpty (l ++ [x]) = chooseNonEmptyString (firstNonEmpty l) x.
Proof.
  unfold firstNonEmpty, chooseNonEmptyString. rewrite firstSuch_app.
  destruct (existsb nonEmptyString l) eqn:He.
  - rewrite (firstSuch_some _ _ _ He). reflexivity.
  - rewrite (firstSuch_none _ _ _ He). simpl.
    destruct (nonEmptyString x) eqn:Hx; [reflexivity|].
    symmetry. apply nonEmptyString_false, Hx.
Qed.

Lemma getString_mergeStep f md d :
  getString f (mergeStep md d) =
  chooseNonEmptyString (getString f md) (getString f d).
Proof. destruct f; reflexivity. Qed.

Lemma getFloat_mergeStep f md d :
  getFloat f (mergeStep md d) =
  chooseNonZeroFloat64 (getFloat f md) (getFloat f d).
Proof. destruct f; reflexivity. Qed.

Lemma getInt_mergeStep f md d :
  getInt f (mergeStep md d) =
  if nonZeroInt (getInt f d) then getInt f d else getInt f md.
Proof. destruct f; reflexivity. Qed.

Lemma getString_merge f data :
  getString f (mergeWeatherData data) = firstNonEmpty (map (getString f) data).
Proof.
  induction data as [|d data IH] using rev_ind.
  - destruct f; reflexivity.
  - rewrite mergeWeatherData_snoc, getString_mergeStep, IH.
    rewrite map_app. simpl. symmetry. apply firstNonEmpty_snoc.
Qed.

Lemma getString_mergeFrom_set f md data :
  nonEmptyString (getString f md) = true ->
  getString f (mergeFrom md data) = getString f md.
Proof.
  revert md. induction data as [|d data IH]; intros md H; [reflexivity|].
  rewrite mergeFrom_cons.
  assert (E : getString f (mergeStep md d) = getString f md).
  { rewrite getString_mergeStep. unfold chooseNonEmptyString. rewrite H. reflexivity. }
  rewrite IH; rewrite E; auto.
Qed.

(** C1. For every sequence of partial records and every string field (city,
    weatherSummary, sunrise, sunset, dayLength), the merged field is the
    first non-empty value of that field in sequence order (the empty string
    when no record has one); and once the records merged so far have set
    the field, merging any further records leaves it as it is. *)
Theorem C1_string_first_non_empty_wins :
  forall (f : StringField) (data : list WeatherData),
    getString f (mergeWeatherData data) = firstNonEmpty (map (getString f) data)
    /\ (forall later : list WeatherData,
          getString f (mergeWeatherData data) <> EmptyString ->
          getString f (mergeWeatherData (data ++ later))
          = getString f (mergeWeatherData data)).
Proof.
  intros f data. split.
  - apply getString_merge.
  - intros later Hset. unfold mergeWeatherData at 1. rewrite mergeFrom_app.
    apply getString_mergeFrom_set.
    destruct (nonEmptyString _) eqn:E; [reflexivity|].
    apply nonEmptyString_false in E. contradiction.
Qed.

Lemma getFloat_merge f data :
  getFloat f (mergeWeatherData data) = lastNonZeroFloat (map (getFloat f) data).
Proof.
  induction data as [|d data IH] using rev_ind.
  - destruct f; reflexivity.
  - rewrite mergeWeatherData_snoc, getFloat_mergeStep, IH, map_app. simpl.
    unfold lastNonZeroFloat. rewrite lastSuch_snoc. reflexivity.
Qed.

Lemma getInt_merge f data :
  getInt f (mergeWeatherData data) = lastNonZeroInt (map (getInt f) data).
Proof.
  induction data as [|d data IH] using rev_ind.
  - destruct f; reflexivity.
  - rewrite mergeWeatherData_snoc, getInt_mergeStep, IH, map_app. simpl.
    unfold lastNonZeroInt. rewrite lastSuch_snoc. reflexivity.
Qed.

(** C2. For every sequence of partial records, every float field
    (temperatureMax, temperatureMin, rainfall, snowfall, temperature,
    temperatureFeelsLike, temperatureTomorrow, temperatureMinTomorrow) and
    every integer field (windSpeed, observationHour), the merged field is
    the last value of that field in sequence order that is not zero (zero
    when there is none); appending a record overrides the field exactly
    when the record's value is not zero, and keeps it otherwise. *)
Theorem C2_numeric_last_non_zero_wins :
  forall (data : list WeatherData),
    (forall f : FloatField,
        getFloat f (mergeWeatherData data)
        = lastNonZeroFloat (map (getFloat f) data)
        /\ forall d : WeatherData,
            getFloat f (mergeWeatherData (data ++ [d]))
            = if nonZeroFloat64 (getFloat f d) then getFloat f d
              else getFloat f (mergeWeatherData data))
    /\ (forall f : IntField,
        getInt f (mergeWeatherData data) = lastNonZeroInt (map (getInt f) data)
        /\ forall d : WeatherData,
            getInt f (mergeWeatherData (data ++ [d]))
            = if nonZeroInt (getInt f d) then getInt f d
              else getInt f (mergeWeatherData data)).
Proof.
  intros data. split; intros f; split.
  - apply getFloat_merge.
  - intros d. rewrite mergeWeatherData_snoc. apply getFloat_mergeStep.
  - apply getInt_merge.
  - intros d. rewrite mergeWeatherData_snoc. apply getInt_mergeStep.
Qed.

Lemma C1_string_first_non_empty_wins_witness :
  getString FWeatherSummary (mergeWeatherData [withSummary "A"]) <> EmptyString
  /\ getString FWeatherSummary
       (mergeWeatherData ([withSummary "A"] ++ [withSummary "B"]))
     = getString FWeatherSummary (mergeWeatherData [withSummary "A"]).
Proof.
  split; [vm_compute; discriminate|].
  apply (C1_string_first_non_empty_wins FWeatherSummary [withSummary "A"]).
  vm_compute. discriminate.
Defined.

(** The specification's examples of the two precedence rules. *)
Example summary_first_wins :
  WeatherSummary (mergeWeatherData [withSummary "A"; withSummary "B"])
  = "A"%string.
Proof. reflexivity. Qed.

Example temperature_last_non_zero_wins :
  Temperature (mergeWeatherData
                 [withTemperature 5%float; withTemperature 0%float;
                  withTemperature 7.5%float]) = 7.5%float
  /\ Temperature (mergeWeatherData
                    [withTemperature 5%float; withTemperature 0%float])
     = 5%float.
Proof. split; reflexivity. Qed.

Example merge_nothing : mergeWeatherData [] = WeatherData_zero.
Proof. reflexivity. Qed.

Example merge_turku :
  let md := mergeWeatherData [turkuForeca; turkuAmpparit; turkuMoisio] in
  City md = "Turku"%string /\ TemperatureMax md = 10%float
  /\ Temperature md = 3%float /\ ObservationHour md = 14
  /\ Sunrise md = "08:15"%string /\ Sunset md = "17:40"%string.
Proof. repeat split. Qed.

Lemma HourlyForecast_mergeStep md d :
  HourlyForecast (mergeStep md d) =
  if nonNil (HourlyForecast d) then HourlyForecast d else HourlyForecast md.
Proof. reflexivity. Qed.

Lemma HourlyForecast_merge data :
  HourlyForecast (mergeWeatherData data)
  = lastNonNilForecast (map HourlyForecast data).
Proof.
  induction data as [|d data IH] using rev_ind.
  - reflexivity.
  - rewrite mergeWeatherData_snoc, HourlyForecast_mergeStep, IH, map_app. simpl.
    unfold lastNonNilForecast. rewrite lastSuch_snoc. reflexivity.
Qed.

Lemma lastSuch_ext_in {A : Type} (p q : A -> bool) dflt l :
  (forall x, In x l -> p x = q x) -> lastSuch p dflt l = lastSuch q dflt l.
Proof.
  induction l as [|y l IH]; intros H; simpl; [reflexivity|].
  assert (E : existsb p l = existsb q l).
  { clear IH. induction l as [|z l IHl]; simpl; [reflexivity|].
    rewrite (H z) by (right; left; reflexivity). f_equal.
    apply IHl. intros x [Hx|Hx]; apply H; [left | right; right]; assumption. }
  rewrite E, (H y) by (left; reflexivity).
  rewrite IH by (intros x Hx; apply H; right; exact Hx). reflexivity.
Qed.

Lemma nilOrPopulated_agree {A : Type} (s : option (list A)) :
  nilOrPopulated s = true -> nonNil s = nonEmptySlice s.
Proof. destruct s as [[|x l]|]; simpl; intros H; try reflexivity; discriminate. Qed.

(** C3 (as amended). For every sequence of partial records, the merged
    hourlyForecast is, whole, the hourlyForecast of the last record whose
    slice is not nil (nil when there is none): a record with a nil slice
    never overwrites it, a record with a non-nil slice always replaces it
    wholesale. When every record's slice is nil or populated, as the
    parsers build them, this is the last record that supplies a non-empty
    sequence. *)
Theorem C3_forecast_last_non_nil_wins :
  forall (data : list WeatherData),
    HourlyForecast (mergeWeatherData data)
    = lastNonNilForecast (map HourlyForecast data)
    /\ (forall d : WeatherData,
          HourlyForecast (mergeWeatherData (data ++ [d]))
          = if nonNil (HourlyForecast d) then HourlyForecast d
            else HourlyForecast (mergeWeatherData data))
    /\ (forallb (fun d => nilOrPopulated (HourlyForecast d)) data = true ->
        HourlyForecast (mergeWeatherData data)
        = lastNonEmptyForecast (map HourlyForecast data)).
Proof.
  intros data. split; [apply HourlyForecast_merge|]. split.
  - intros d. rewrite mergeWeatherData_snoc. apply HourlyForecast_mergeStep.
  - intros Hshape. rewrite HourlyForecast_merge.
    unfold lastNonNilForecast, lastNonEmptyForecast.
    apply lastSuch_ext_in. intros s Hs.
    apply in_map_iff in Hs. destruct Hs as [d [<- Hd]].
    apply nilOrPopulated_agree.
    rewrite forallb_forall in Hshape. apply Hshape, Hd.
Qed.

(** The specification's two examples of wholesale replacement, the empty
    slice of the first one read as Go's nil slice. *)
Example forecast_nil_keeps :
  HourlyForecast (mergeWeatherData populatedThenNil) = Some [h1].
Proof. reflexivity. Qed.

Example forecast_replaced_wholesale :
  HourlyForecast (mergeWeatherData populatedTwice) = Some [h2; h3].
Proof. reflexivity. Qed.

(** C3, counterexample. An empty slice that is not nil passes the guard
    [d.HourlyForecast != nil] and overwrites the populated forecast: the
    merge of [[{[h1]}, {[]}]] holds the empty slice, not [[h1]], the
    forecast of the last record that supplies a non-empty sequence. *)
Lemma C3_empty_slice_overwrites :
  lastNonEmptyForecast (map HourlyForecast populatedThenEmpty) = Some [h1]
  /\ HourlyForecast (mergeWeatherData populatedThenEmpty) = Some []
  /\ HourlyForecast (mergeWeatherData populatedThenEmpty)
     <> lastNonEmptyForecast (map HourlyForecast populatedThenEmpty).
Proof.
  split; [reflexivity|]. split; [reflexivity|].
  vm_compute. discriminate.
Qed.

Lemma C3_forecast_last_non_nil_wins_witness :
  forallb (fun d => nilOrPopulated (HourlyForecast d)) populatedTwice = true
  /\ HourlyForecast (mergeWeatherData populatedTwice)
     = lastNonEmptyForecast (map HourlyForecast populatedTwice).
Proof.
  split; [reflexivity|].
  apply (C3_forecast_last_non_nil_wins populatedTwice). reflexivity.
Defined.

Lemma forecastAssignments_snoc data d :
  forecastAssignments (data ++ [d])
  = if nonNil (HourlyForecast d)
    then forecastAssignments data ++ [HourlyForecast d]
    else forecastAssignments data.
Proof. unfold forecastAssignments. rewrite fold_left_app. reflexivity. Qed.

Lemma forecastAssignments_filter data :
  forecastAssignments data
  = List.filter nonNil (map HourlyForecast data).
Proof.
  induction data as [|d data IH] using rev_ind; [reflexivity|].
  rewrite forecastAssignments_snoc, map_app, List.filter_app, IH. simpl.
  destruct (nonNil (HourlyForecast d)); [reflexivity|].
  rewrite app_nil_r. reflexivity.
Qed.

Lemma HourlyForecast_merge_last data :
  HourlyForecast (mergeWeatherData data)
  = List.last (forecastAssignments data) None.
Proof.
  induction data as [|d data IH] using rev_ind; [reflexivity|].
  rewrite mergeWeatherData_snoc, HourlyForecast_mergeStep, forecastAssignments_snoc.
  destruct (nonNil (HourlyForecast d)); [|exact IH].
  rewrite last_last. reflexivity.
Qed.

Lemma HourlyForecast_merge_source data hs :
  HourlyForecast (mergeWeatherData data) = Some hs ->
  exists before d after,
    data = before ++ d :: after
    /\ HourlyForecast d = Some hs
    /\ forallb (fun r => negb (nonNil (HourlyForecast r))) after = true.
Proof.
  induction data as [|d data IH] using rev_ind.
  - discriminate.
  - rewrite mergeWeatherData_snoc, HourlyForecast_mergeStep.
    destruct (nonNil (HourlyForecast d)) eqn:Hd; intros H.
    + exists data, d, []. repeat split; assumption.
    + destruct (IH H) as (before & d' & after & -> & Hd' & Hafter).
      exists before, d', (after ++ [d]). split; [|split].
      * rewrite <- app_assoc. reflexivity.
      * exact Hd'.
      * rewrite forallb_app, Hafter. simpl. rewrite Hd. reflexivity.
Qed.

(** C4 (as amended). For every sequence of partial records, the loop
    assigns hourlyForecast once for each record whose slice is not nil, in
    merge order and each time with that record's whole slice; the merged
    hourlyForecast is the last of these assignments, so when present it is
    the whole slice of one input record, the last one with a non-nil
    slice, and never a mixture of the elements of several records. *)
Theorem C4_forecast_set_whole_by_last_supplier :
  forall (data : list WeatherData),
    forecastAssignments data
    = List.filter nonNil (map HourlyForecast data)
    /\ HourlyForecast (mergeWeatherData data)
       = List.last (forecastAssignments data) None
    /\ (forall hs : list Hourly.HourlyForecast,
          HourlyForecast (mergeWeatherData data) = Some hs ->
          exists before d after,
            data = before ++ d :: after
            /\ HourlyForecast d = Some hs
            /\ forallb (fun r => negb (nonNil (HourlyForecast r))) after = true).
Proof.
  intros data. split; [apply forecastAssignments_filter|].
  split; [apply HourlyForecast_merge_last|].
  intros hs. apply HourlyForecast_merge_source.
Qed.

Lemma C4_forecast_set_whole_by_last_supplier_witness :
  HourlyForecast (mergeWeatherData populatedTwice) = Some [h2; h3]
  /\ exists before d after,
      populatedTwice = before ++ d :: after
      /\ HourlyForecast d = Some [h2; h3]
      /\ forallb (fun r => negb (nonNil (HourlyForecast r))) after = true.
Proof.
  split; [reflexivity|].
  apply (C4_forecast_set_whole_by_last_supplier populatedTwice). reflexivity.
Defined.

(** C4, counterexample. In the merge of [[{[h1]}, {[h2,h3]}]] the forecast
    is assigned twice, and the merged value is the second record's slice,
    not the one of the first record that supplies a non-empty sequence. *)
Lemma C4_forecast_not_set_once_by_first :
  HourlyForecast (mergeWeatherData populatedTwice) <> None
  /\ forecastAssignments populatedTwice = [Some [h1]; Some [h2; h3]]
  /\ length (forecastAssignments populatedTwice) <> 1%nat
  /\ firstNonEmptyForecast (map HourlyForecast populatedTwice) = Some [h1]
  /\ HourlyForecast (mergeWeatherData populatedTwice)
     <> firstNonEmptyForecast (map HourlyForecast populatedTwice).
Proof.
  split; [vm_compute; discriminate|]. split; [reflexivity|].
  split; [vm_compute; discriminate|]. split; [reflexivity|].
  vm_compute. intros H. inversion H.
Qed.

(** *** City-name normalisation *)

Lemma startsAt_two (a b : ascii) (new : string) c c' s :
  startsAt (String c (String c' s)) (String a (String b EmptyString), new)
  = Ascii.eqb c a && Ascii.eqb c' b.
Proof.
  unfold startsAt. simpl.
  destruct (ascii_dec a c) as [->|Hac].
  - rewrite Ascii.eqb_refl. simpl.
    destruct (ascii_dec b c') as [->|Hbc].
    + rewrite Ascii.eqb_refl. destruct s; reflexivity.
    + destruct (Ascii.eqb_spec c' b); [congruence | reflexivity].
  - destruct (Ascii.eqb_spec c a); [congruence | reflexivity].
Qed.

Lemma startsAt_one_short (a b : ascii) (new : string) c :
  startsAt (String c EmptyString) (String a (String b EmptyString), new) = false.
Proof. unfold startsAt. simpl. destruct (ascii_dec a c); reflexivity. Qed.

Lemma sanitize_unfold c s' :
  replaceFrom diacritics 0 (String c s') =
  match s' with
  | EmptyString => String c EmptyString
  | String c' s'' =>
      if Ascii.eqb c byteC3 && Ascii.eqb c' byteA4
      then String "a" (replaceFrom diacritics 0 s'')
      else if Ascii.eqb c byteC3 && Ascii.eqb c' byteB6
      then String "o" (replaceFrom diacritics 0 s'')
      else String c (replaceFrom diacritics 0 s')
  end.
Proof.
  destruct s' as [|c' s''].
  - cbn [replaceFrom]. unfold diacritics. cbn [List.find].
    change "ä"%string with (String byteC3 (String byteA4 EmptyString)).
    change "ö"%string with (String byteC3 (String byteB6 EmptyString)).
    rewrite !startsAt_one_short. reflexivity.
  - cbn [replaceFrom]. unfold diacritics. cbn [List.find].
    change "ä"%string with (String byteC3 (String byteA4 EmptyString)).
    change "ö"%string with (String byteC3 (String byteB6 EmptyString)).
    rewrite !startsAt_two.
    destruct (Ascii.eqb c byteC3 && Ascii.eqb c' byteA4); [reflexivity|].
    destruct (Ascii.eqb c byteC3 && Ascii.eqb c' byteB6); reflexivity.
Qed.

Lemma sanitize_fold_le n : forall s,
  (String.length s <= n)%nat -> replaceFrom diacritics 0 s = foldDiacritics s.
Proof.
  induction n as [|n IH]; intros s Hn.
  - destruct s; [reflexivity | simpl in Hn; lia].
  - destruct s as [|c s']; [reflexivity|].
    rewrite sanitize_unfold. destruct s' as [|c' s'']; [reflexivity|].
    simpl in Hn. cbn [foldDiacritics].
    rewrite (IH s'') by lia.
    rewrite (IH (String c' s'')) by (simpl; lia). reflexivity.
Qed.

Lemma sanitizeCityName_fold s : sanitizeCityName s = foldDiacritics s.
Proof. apply (sanitize_fold_le (String.length s)). lia. Qed.

(** The first byte of a folded string is the first byte of the string or
    one of the two replacement letters. *)
Lemma foldDiacritics_head c s :
  exists h t, foldDiacritics (String c s) = String h t
              /\ (h = c \/ h = "a"%char \/ h = "o"%char).
Proof.
  destruct s as [|c' s'']; cbn [foldDiacritics].
  - eauto.
  - destruct (Ascii.eqb c byteC3 && Ascii.eqb c' byteA4); [eauto 6|].
    destruct (Ascii.eqb c byteC3 && Ascii.eqb c' byteB6); eauto 6.
Qed.

Lemma foldDiacritics_cons_other c s :
  (Ascii.eqb c byteC3 = false
   \/ match s with
      | String h _ => Ascii.eqb h byteA4 = false /\ Ascii.eqb h byteB6 = false
      | EmptyString => True
      end) ->
  foldDiacritics (String c s) = String c (foldDiacritics s).
Proof.
  intros H. destruct s as [|h t]; [reflexivity|]. cbn [foldDiacritics].
  destruct H as [H | [H1 H2]].
  - rewrite H. reflexivity.
  - rewrite H1, H2, !andb_false_r. reflexivity.
Qed.

Lemma foldDiacritics_idem_le n : forall s,
  (String.length s <= n)%nat -> foldDiacritics (foldDiacritics s) = foldDiacritics s.
Proof.
  induction n as [|n IH]; intros s Hn.
  - destruct s; [reflexivity | simpl in Hn; lia].
  - destruct s as [|c s']; [reflexivity|].
    destruct s' as [|c' s'']; [reflexivity|].
    simpl in Hn. cbn [foldDiacritics].
    destruct (Ascii.eqb c byteC3 && Ascii.eqb c' byteA4) eqn:E1;
      [|destruct (Ascii.eqb c byteC3 && Ascii.eqb c' byteB6) eqn:E2].
    + rewrite foldDiacritics_cons_other by (left; reflexivity).
      rewrite IH by lia. reflexivity.
    + rewrite foldDiacritics_cons_other by (left; reflexivity).
      rewrite IH by lia. reflexivity.
    + assert (Hrec : foldDiacritics (foldDiacritics (String c' s''))
                     = foldDiacritics (String c' s'')) by (apply IH; simpl; lia).
      change (foldDiacritics (String c (foldDiacritics (String c' s'')))
              = String c (foldDiacritics (String c' s''))).
      rewrite foldDiacritics_cons_other; [rewrite Hrec; reflexivity|].
      destruct (Ascii.eqb c byteC3) eqn:Ec; [right | left; reflexivity].
      simpl in E1, E2.
      destruct (foldDiacritics_head c' s'') as (h & t & -> & [->|[->| ->]]);
        split; try assumption; reflexivity.
Qed.

(** C8. City-name normalisation is idempotent: for every string [x],
    normalising the normalised [x] gives the normalised [x]. It folds the
    diacritics: an a-umlaut becomes [a] and an o-umlaut becomes [o] wherever
    the scan meets one, so "Hyvinkää" and "Hyvinkaa" normalise to the same
    string. *)
Theorem C8_sanitizeCityName_idempotent :
  (forall x : string,
      sanitizeCityName (sanitizeCityName x) = sanitizeCityName x)
  /\ (forall x : string,
        sanitizeCityName (String.append "ä" x)
        = String.append "a" (sanitizeCityName x))
  /\ (forall x : string,
        sanitizeCityName (String.append "ö" x)
        = String.append "o" (sanitizeCityName x))
  /\ sanitizeCityName "Hyvinkää" = sanitizeCityName "Hyvinkaa"
  /\ sanitizeCityName "Hyvinkää" = "Hyvinkaa"%string.
Proof.
  split; [|split; [|split; [|split]]].
  - intros x. rewrite !sanitizeCityName_fold.
    apply (foldDiacritics_idem_le (String.length x)). lia.
  - intros x. rewrite !sanitizeCityName_fold. reflexivity.
  - intros x. rewrite !sanitizeCityName_fold. reflexivity.
  - reflexivity.
  - reflexivity.
Qed.

(** *** The cache and the facade *)

Lemma cacheDuration_value : cacheDuration = 300000000000.
Proof. reflexivity. Qed.

(** Saturation does not change the comparison with the ttl. *)
Lemma Since_lt_cacheDuration now t :
  (Since now t <? cacheDuration) = (now - t <? cacheDuration).
Proof.
  unfold Since, Sub. rewrite cacheDuration_value.
  change minDuration with (-9223372036854775808).
  change maxDuration with 9223372036854775807.
  destruct (now - t <? -9223372036854775808) eqn:E1;
    [|destruct (9223372036854775807 <? now - t) eqn:E2]; lia.
Qed.

Lemma cacheHit_lookup (cache : gmap string WeatherData) city now :
  cacheHit cache city now =
  match cache !! city with
  | Some e => now - LastUpdated e <? cacheDuration
  | None => false
  end.
Proof.
  unfold cacheHit. destruct (cache !! city) as [e|]; cbn.
  - apply Since_lt_cacheDuration.
  - reflexivity.
Qed.

Lemma cacheHit_later (cache : gmap string WeatherData) city now now' :
  now <= now' -> cacheHit cache city now = false ->
  cacheHit cache city now' = false.
Proof.
  rewrite !cacheHit_lookup. destruct (cache !! city) as [e|]; [|reflexivity].
  intros Hle H. apply Z.ltb_ge in H. apply Z.ltb_ge. lia.
Qed.

Lemma GetWeatherData_hit (cache : gmap string WeatherData) city w :
  cacheHit cache (sanitizeCityName city) (clockAtCheck w) = true ->
  GetWeatherData cache city w
  = mkOutcome (default WeatherData_zero (cache !! sanitizeCityName city))
      None cache [].
Proof. intros H. unfold GetWeatherData. rewrite H. reflexivity. Qed.

Lemma GetWeatherData_refresh (cache : gmap string WeatherData) city w :
  cacheHit cache (sanitizeCityName city) (clockAtCheck w) = false ->
  GetWeatherData cache city w
  = let key := sanitizeCityName city in
    let urls := map (fun URL => String.append URL key) weatherSources in
    let final := setLastUpdated (clockAtStamp w) (mergeWeatherData (received w)) in
    if String.eqb (City final) EmptyString
    then mkOutcome WeatherData_zero (Some (notFoundMessage key)) cache urls
    else mkOutcome final None (<[key := final]> cache) urls.
Proof. intros H. unfold GetWeatherData. rewrite H. reflexivity. Qed.

Lemma City_setLastUpdated t w : City (setLastUpdated t w) = City w.
Proof. destruct w; reflexivity. Qed.

(** C5. For every call of GetWeatherData that is not answered from the
    cache and in which the merge of the collected records has an empty
    city, as it has when no source succeeded, the call returns the zero
    record with the error "No weather data found for city ..." and leaves
    the cache as it was; nothing is stored under the key, so a later call
    for the same city is not answered from the cache either and fetches
    from every source again. *)
Theorem C5_not_found_is_not_cached :
  forall (cache : gmap string WeatherData) (city : string) (w : World),
    cacheHit cache (sanitizeCityName city) (clockAtCheck w) = false ->
    City (mergeWeatherData (received w)) = EmptyString ->
    let o := GetWeatherData cache city w in
    err o = Some (notFoundMessage (sanitizeCityName city))
    /\ Contains (notFoundMessage (sanitizeCityName city))
         "No weather data found" = true
    /\ weather o = WeatherData_zero
    /\ cacheAfter o = cache
    /\ cacheAfter o !! sanitizeCityName city = cache !! sanitizeCityName city
    /\ City (mergeWeatherData []) = EmptyString
    /\ (forall w' : World,
          clockAtCheck w <= clockAtCheck w' ->
          requested (GetWeatherData (cacheAfter o) city w')
          = map (fun URL => String.append URL (sanitizeCityName city))
              weatherSources).
Proof.
  intros cache city w Hmiss Hcity o.
  assert (Ho : o = mkOutcome WeatherData_zero
                     (Some (notFoundMessage (sanitizeCityName city))) cache
                     (map (fun URL => String.append URL (sanitizeCityName city))
                        weatherSources)).
  { unfold o. rewrite GetWeatherData_refresh by exact Hmiss. cbv zeta.
    rewrite City_setLastUpdated, Hcity. reflexivity. }
  rewrite Ho. cbn [err weather cacheAfter].
  repeat split.
  intros w' Hle.
  rewrite GetWeatherData_refresh by (eapply cacheHit_later; eassumption).
  cbv zeta. destruct (String.eqb _ _); reflexivity.
Qed.

Lemma C5_not_found_is_not_cached_witness :
  cacheHit ∅ (sanitizeCityName "Turku") (clockAtCheck (allSourcesFail 1000))
  = false
  /\ City (mergeWeatherData (received (allSourcesFail 1000))) = EmptyString
  /\ err (GetWeatherData ∅ "Turku" (allSourcesFail 1000))
     = Some (notFoundMessage (sanitizeCityName "Turku"))
  /\ cacheAfter (GetWeatherData ∅ "Turku" (allSourcesFail 1000)) = ∅.
Proof.
  split; [reflexivity|]. split; [reflexivity|].
  pose proof (C5_not_found_is_not_cached ∅ "Turku" (allSourcesFail 1000)
                eq_refl eq_refl) as H.
  cbv zeta in H. destruct H as (He & _ & _ & Hc & _).
  split; [exact He | exact Hc].
Defined.

Lemma prefix_append s t : String.prefix s (String.append s t) = true.
Proof.
  induction s as [|c s IH]; simpl.
  - destruct t; reflexivity.
  - destruct (ascii_dec c c); [exact IH | congruence].
Qed.

Lemma Contains_here s sub : String.prefix sub s = true -> Contains s sub = true.
Proof. intros H. destruct s; simpl in *; rewrite H; reflexivity. Qed.

Lemma Contains_append_l a s sub :
  Contains s sub = true -> Contains (String.append a s) sub = true.
Proof.
  intros H. induction a as [|c a IH]; simpl; [exact H|].
  rewrite IH. apply orb_true_r.
Qed.

Lemma Contains_notFoundMessage city : Contains (notFoundMessage city) city = true.
Proof.
  unfold notFoundMessage.
  apply Contains_append_l, Contains_append_l, Contains_here, prefix_append.
Qed.

Lemma GetWeatherData_err (cache : gmap string WeatherData) city w msg :
  err (GetWeatherData cache city w) = Some msg ->
  msg = notFoundMessage (sanitizeCityName city).
Proof.
  unfold GetWeatherData.
  destruct (cacheHit _ _ _); [discriminate|].
  destruct (String.eqb _ _); cbn [err]; congruence.
Qed.

(** C6, counterexample. With an empty cache and no source answering, the
    call for "Hyvinkää" fails with a message that names "Hyvinkaa": the
    name as the caller gave it does not occur in the message. *)
Lemma C6_message_lacks_requested_name :
  exists msg : string,
    err (GetWeatherData ∅ "Hyvinkää" (allSourcesFail 1000)) = Some msg
    /\ msg = notFoundMessage "Hyvinkaa"
    /\ Contains msg "Hyvinkää" = false.
Proof.
  exists (notFoundMessage "Hyvinkaa"). repeat split.
Qed.

(** C7. For every cached entry whose age, the clock minus its lastUpdated
    stamp, is strictly less than the ttl of five minutes, GetWeatherData
    for a city of that key returns the stored record as it is, with no
    error, sends no request to any source and leaves the cache as it was.
    Only a miss or an entry at least the ttl old triggers a refresh: a call
    that does send requests found no entry under the key or an entry at
    least the ttl old, and every call that finds no entry, or an entry at
    least the ttl old, sends a request to each source and returns what the
    refresh gives, never the stored record. *)
Theorem C7_fresh_entry_served_from_cache :
  forall (cache : gmap string WeatherData) (city : string) (w : World),
    cacheDuration = 5 * 60 * 1000000000
    /\ (forall e : WeatherData,
          cache !! sanitizeCityName city = Some e ->
          clockAtCheck w - LastUpdated e < cacheDuration ->
          GetWeatherData cache city w = mkOutcome e None cache [])
    /\ (requested (GetWeatherData cache city w) <> [] ->
        cache !! sanitizeCityName city = None
        \/ exists e : WeatherData,
            cache !! sanitizeCityName city = Some e
            /\ cacheDuration <= clockAtCheck w - LastUpdated e)
    /\ (cache !! sanitizeCityName city = None
        \/ (exists e : WeatherData,
              cache !! sanitizeCityName city = Some e
              /\ cacheDuration <= clockAtCheck w - LastUpdated e) ->
        let key := sanitizeCityName city in
        let urls := map (fun URL => String.append URL key) weatherSources in
        let final :=
          setLastUpdated (clockAtStamp w) (mergeWeatherData (received w)) in
        requested (GetWeatherData cache city w) = urls
        /\ length (requested (GetWeatherData cache city w)) = 3%nat
        /\ GetWeatherData cache city w
           = if String.eqb (City final) EmptyString
             then mkOutcome WeatherData_zero (Some (notFoundMessage key)) cache urls
             else mkOutcome final None (<[key := final]> cache) urls).
Proof.
  intros cache city w. split; [reflexivity|]. split; [|split].
  - intros e He Hage. rewrite GetWeatherData_hit.
    + rewrite He. reflexivity.
    + rewrite cacheHit_lookup, He. apply Z.ltb_lt, Hage.
  - intros Hreq.
    destruct (cacheHit cache (sanitizeCityName city) (clockAtCheck w)) eqn:Hhit.
    + rewrite GetWeatherData_hit in Hreq by exact Hhit. contradiction.
    + rewrite cacheHit_lookup in Hhit.
      destruct (cache !! sanitizeCityName city) as [e|]; [right | left; reflexivity].
      exists e. split; [reflexivity|]. apply Z.ltb_ge, Hhit.
  - intros Hstale key urls final.
    assert (Hmiss : cacheHit cache (sanitizeCityName city) (clockAtCheck w) = false).
    { rewrite cacheHit_lookup. destruct Hstale as [-> | (e & -> & Hage)];
        [reflexivity | apply Z.ltb_ge, Hage]. }
    rewrite GetWeatherData_refresh by exact Hmiss. cbv zeta.
    fold key. fold urls. fold final.
    destruct (String.eqb (City final) EmptyString); repeat split.
Qed.

Lemma C7_fresh_entry_served_from_cache_witness :
  (turkuCache !! sanitizeCityName "Turku" = Some turkuCached
   /\ clockAtCheck soonAfter - LastUpdated turkuCached < cacheDuration
   /\ GetWeatherData turkuCache "Turku" soonAfter
      = mkOutcome turkuCached None turkuCache [])
  /\ (cacheDuration <= clockAtCheck atTheTtl - LastUpdated turkuCached
      /\ length (requested (GetWeatherData turkuCache "Turku" atTheTtl)) = 3%nat).
Proof.
  destruct (C7_fresh_entry_served_from_cache turkuCache "Turku" soonAfter)
    as (_ & Hfresh & _).
  destruct (C7_fresh_entry_served_from_cache turkuCache "Turku" atTheTtl)
    as (_ & _ & _ & Hstale).
  assert (Hage : cacheDuration <= clockAtCheck atTheTtl - LastUpdated turkuCached)
    by (vm_compute; discriminate).
  split.
  - split; [reflexivity|]. split; [reflexivity|].
    apply Hfresh; reflexivity.
  - split; [exact Hage|].
    apply Hstale. right. exists turkuCached. split; [reflexivity | exact Hage].
Defined.

Lemma LastUpdated_setLastUpdated t w : LastUpdated (setLastUpdated t w) = t.
Proof. destruct w; reflexivity. Qed.

(** A record stored by a refresh is served as it is while it is younger
    than the ttl, and refreshed again once it is not. *)
Lemma GetWeatherData_stored_then_served
  (cache : gmap string WeatherData) city w w' :
  cacheHit cache (sanitizeCityName city) (clockAtCheck w) = false ->
  City (mergeWeatherData (received w)) <> EmptyString ->
  let o := GetWeatherData cache city w in
  err o = None
  /\ cacheAfter o !! sanitizeCityName city = Some (weather o)
  /\ (clockAtCheck w' - clockAtStamp w < cacheDuration ->
      GetWeatherData (cacheAfter o) city w'
      = mkOutcome (weather o) None (cacheAfter o) [])
  /\ (cacheDuration <= clockAtCheck w' - clockAtStamp w ->
      requested (GetWeatherData (cacheAfter o) city w') <> []).
Proof.
  intros Hmiss Hcity o.
  set (final := setLastUpdated (clockAtStamp w) (mergeWeatherData (received w))).
  assert (Ho : o = mkOutcome final None
                     (<[sanitizeCityName city := final]> cache)
                     (map (fun URL => String.append URL (sanitizeCityName city))
                        weatherSources)).
  { unfold o. rewrite GetWeatherData_refresh by exact Hmiss. cbv zeta.
    fold final. destruct (String.eqb_spec (City final) EmptyString) as [E|E];
      [|reflexivity].
    unfold final in E. rewrite City_setLastUpdated in E. contradiction. }
  rewrite Ho. cbn [err weather cacheAfter].
  split; [reflexivity|]. split; [apply lookup_insert_eq|]. split.
  - intros Hage. rewrite GetWeatherData_hit.
    + rewrite lookup_insert_eq. reflexivity.
    + rewrite cacheHit_lookup, lookup_insert_eq.
      unfold final. rewrite LastUpdated_setLastUpdated. apply Z.ltb_lt, Hage.
  - intros Hage. rewrite GetWeatherData_refresh.
    + cbv zeta. destruct (String.eqb _ _); discriminate.
    + rewrite cacheHit_lookup, lookup_insert_eq.
      unfold final. rewrite LastUpdated_setLastUpdated. apply Z.ltb_ge, Hage.
Qed.

(** *** The coordinator *)

Lemma pending_insert_done (fs : list Fetcher) i f f' :
  fs !! i = Some f -> terminated f = false -> terminated f' = true ->
  S (pending (<[i := f']> fs)) = pending fs.
Proof.
  unfold pending. revert i. induction fs as [|g fs IH]; intros i Hi Hf Hf'.
  - discriminate.
  - destruct i as [|i]; simpl in *.
    + injection Hi as ->. rewrite Hf, Hf'. reflexivity.
    + destruct (negb (terminated g)); simpl; rewrite <- (IH i Hi Hf Hf'); reflexivity.
Qed.

Lemma pending_insert_same (fs : list Fetcher) i f f' :
  fs !! i = Some f -> terminated f' = terminated f ->
  pending (<[i := f']> fs) = pending fs.
Proof.
  unfold pending. revert i. induction fs as [|g fs IH]; intros i Hi Hf.
  - discriminate.
  - destruct i as [|i]; simpl in *.
    + injection Hi as ->. rewrite Hf. destruct (negb (terminated f)); reflexivity.
    + destruct (negb (terminated g)); simpl; rewrite (IH i Hi Hf); reflexivity.
Qed.

Lemma pending_zero (fs : list Fetcher) :
  pending fs = 0%nat -> Forall (fun f => terminated f = true) fs.
Proof.
  unfold pending. induction fs as [|g fs IH]; intros H; [constructor|].
  simpl in H. destruct (terminated g) eqn:Hg; simpl in H; [|discriminate].
  constructor; [exact Hg | apply IH, H].
Qed.

Lemma pending_replicate n : pending (replicate n Fetching) = n.
Proof. unfold pending. induction n as [|n IH]; simpl; [reflexivity | rewrite IH; reflexivity]. Qed.

Lemma delivered_insert_new (fs : list Fetcher) i f f' d :
  fs !! i = Some f -> delivered f = None -> delivered f' = Some d ->
  omap delivered (<[i := f']> fs) ≡ₚ omap delivered fs ++ [d].
Proof.
  revert i. induction fs as [|g fs IH]; intros i Hi Hf Hf'.
  - discriminate.
  - destruct i as [|i]; simpl in *.
    + injection Hi as ->. rewrite Hf, Hf'.
      apply Permutation_cons_append.
    + destruct (delivered g); simpl; rewrite (IH i Hi Hf Hf'); reflexivity.
Qed.

Lemma delivered_insert_same (fs : list Fetcher) i f f' :
  fs !! i = Some f -> delivered f' = delivered f ->
  omap delivered (<[i := f']> fs) = omap delivered fs.
Proof.
  revert i. induction fs as [|g fs IH]; intros i Hi Hf.
  - discriminate.
  - destruct i as [|i]; simpl in *.
    + injection Hi as ->. rewrite Hf. reflexivity.
    + destruct (delivered g); [f_equal|]; apply (IH i Hi Hf).
Qed.

Lemma coordinated_launch n : coordinated n (launch n).
Proof.
  split; simpl.
  - apply length_replicate.
  - rewrite pending_replicate. reflexivity.
  - intros H. congruence.
  - discriminate.
  - discriminate.
  - induction n as [|n IH]; simpl; [reflexivity | exact IH].
Qed.

Lemma coordinated_step n s e s' :
  coordinated n s -> step s e = Some s' -> coordinated n s'.
Proof.
  intros [Hn Hwg Hwk Hcl Hmg Hrec] Hstep.
  destruct e as [i | i d | i | | | | ]; simpl in Hstep.
  - (* FetcherFails *)
    destruct (fetchers s !! i) as [[| |]|] eqn:Hi; try discriminate.
    injection Hstep as <-.
    pose proof (pending_insert_done _ i Fetching (Finished None) Hi eq_refl eq_refl) as Hp.
    split; simpl.
    + rewrite length_insert. exact Hn.
    + lia.
    + intros Hc. specialize (Hwk Hc). lia.
    + exact Hcl.
    + exact Hmg.
    + rewrite (delivered_insert_same _ i Fetching) by auto. exact Hrec.
  - (* FetcherSends *)
    destruct (fetchers s !! i) as [[| |]|] eqn:Hi; try discriminate.
    destruct (length (buffer s) <? length (fetchers s))%nat; try discriminate.
    injection Hstep as <-.
    pose proof (pending_insert_done _ i Fetching (Finished None) Hi eq_refl eq_refl) as Hp.
    split; simpl.
    + rewrite length_insert. exact Hn.
    + rewrite (pending_insert_same _ i Fetching) by auto. exact Hwg.
    + exact Hwk.
    + exact Hcl.
    + intros md Hmd. destruct (Hmg md Hmd) as (Hc & _ & _).
      assert (Hw : closer s <> Waiting) by (rewrite (Hcl Hc); discriminate).
      specialize (Hwk Hw). lia.
    + rewrite (delivered_insert_new _ i Fetching (Sent d) d Hi) by auto.
      rewrite app_assoc, Hrec. reflexivity.
  - (* FetcherReturns *)
    destruct (fetchers s !! i) as [[|d|]|] eqn:Hi; try discriminate.
    injection Hstep as <-.
    pose proof (pending_insert_done _ i (Sent d) (Finished (Some d)) Hi eq_refl eq_refl) as Hp.
    split; simpl.
    + rewrite length_insert. exact Hn.
    + lia.
    + intros Hc. specialize (Hwk Hc). lia.
    + exact Hcl.
    + exact Hmg.
    + rewrite (delivered_insert_same _ i (Sent d)) by auto. exact Hrec.
  - (* CloserWakes *)
    destruct (closer s) eqn:Hc; try discriminate.
    destruct (wg s =? 0) eqn:Hz; try discriminate.
    injection Hstep as <-. split; simpl.
    + exact Hn.
    + exact Hwg.
    + intros _. apply Z.eqb_eq, Hz.
    + intros Hcd. specialize (Hcl Hcd). discriminate.
    + exact Hmg.
    + exact Hrec.
  - (* CloserCloses *)
    destruct (closer s) eqn:Hc; try discriminate.
    injection Hstep as <-. split; simpl.
    + exact Hn.
    + exact Hwg.
    + intros _. apply Hwk. discriminate.
    + reflexivity.
    + intros md Hmd. destruct (Hmg md Hmd) as (Hcd & _).
      specialize (Hcl Hcd). discriminate.
    + exact Hrec.
  - (* CallerReceives *)
    destruct (caller s) eqn:Hc; try discriminate.
    destruct (buffer s) as [|d rest] eqn:Hb; try discriminate.
    injection Hstep as <-. split; simpl.
    + exact Hn.
    + exact Hwg.
    + exact Hwk.
    + exact Hcl.
    + intros md Hmd. discriminate.
    + rewrite <- app_assoc. exact Hrec.
  - (* CallerMerges *)
    destruct (caller s) eqn:Hc; try discriminate.
    destruct (buffer s) as [|d rest] eqn:Hb; try discriminate.
    destruct (closed s) eqn:Hcd; try discriminate.
    injection Hstep as <-. split; simpl.
    + exact Hn.
    + exact Hwg.
    + exact Hwk.
    + exact Hcl.
    + intros md Hmd. injection Hmd as <-. auto.
    + exact Hrec.
Qed.

Lemma coordinated_run n events : forall s s',
  coordinated n s -> run events s = Some s' -> coordinated n s'.
Proof.
  induction events as [|e events IH]; intros s s' Hs Hrun; simpl in Hrun.
  - injection Hrun as <-. exact Hs.
  - destruct (step s e) as [s1|] eqn:He; [|discriminate].
    eapply IH; [eapply coordinated_step; eassumption | exact Hrun].
Qed.

Lemma reachable_coordinated s :
  reachable s -> coordinated (length weatherSources) s.
Proof.
  intros [events Hrun].
  eapply coordinated_run; [apply coordinated_launch | exact Hrun].
Qed.

(** C9. In every state a request can reach, the counter of the wait group
    is the number of fetchers, of the fixed number launched, that have not
    terminated; as long as one of them has not, the caller is still
    collecting and has no merged record; and once the caller has merged,
    every fetcher has terminated, in success or failure, the channel is
    closed and drained, and the merged record is the merge of all the
    records the fetchers delivered. *)
Theorem C9_merge_waits_for_all_fetchers :
  forall s : Coordinator,
    reachable s ->
    length (fetchers s) = length weatherSources
    /\ wg s = Z.of_nat (pending (fetchers s))
    /\ (pending (fetchers s) <> 0%nat -> caller s = Collecting)
    /\ (forall md : WeatherData,
          caller s = Merged md ->
          Forall (fun f => terminated f = true) (fetchers s)
          /\ wg s = 0
          /\ closed s = true
          /\ buffer s = []
          /\ md = mergeWeatherData (weatherData s)
          /\ weatherData s ≡ₚ omap delivered (fetchers s)).
Proof.
  intros s Hs. destruct (reachable_coordinated s Hs) as [Hn Hwg Hwk Hcl Hmg Hrec].
  assert (Hdone : forall md, caller s = Merged md -> wg s = 0).
  { intros md Hmd. destruct (Hmg md Hmd) as (Hc & _ & _).
    apply Hwk. rewrite (Hcl Hc). discriminate. }
  split; [exact Hn|]. split; [exact Hwg|]. split.
  - intros Hp. destruct (caller s) as [|md] eqn:Hc; [reflexivity|].
    specialize (Hdone md eq_refl). lia.
  - intros md Hmd. destruct (Hmg md Hmd) as (Hc & Hb & Hm).
    pose proof (Hdone md Hmd) as Hz.
    split; [apply pending_zero; lia|]. split; [exact Hz|].
    split; [exact Hc|]. split; [exact Hb|]. split; [exact Hm|].
    rewrite <- Hrec, Hb, app_nil_r. reflexivity.
Qed.

Lemma C9_merge_waits_for_all_fetchers_witness :
  reachable sampleEnd
  /\ caller sampleEnd = Merged (mergeWeatherData [turkuMoisio; turkuAmpparit])
  /\ Forall (fun f => terminated f = true) (fetchers sampleEnd)
  /\ wg sampleEnd = 0.
Proof.
  assert (Hr : reachable sampleEnd) by (exists sampleSchedule; reflexivity).
  split; [exact Hr|]. split; [reflexivity|].
  destruct (C9_merge_waits_for_all_fetchers sampleEnd Hr) as (_ & _ & _ & H).
  destruct (H _ eq_refl) as (Hall & Hz & _).
  split; [exact Hall | exact Hz].
Defined.

(** The records a finished request has collected are the world of the
    call: a refresh returns the merged record of the coordinator, stamped,
    or the not-found error when its city is empty. *)
Lemma GetWeatherData_of_request
  (cache : gmap string WeatherData) city now stamp s md :
  cacheHit cache (sanitizeCityName city) now = false ->
  caller s = Merged md -> reachable s ->
  let o := GetWeatherData cache city (mkWorld now (weatherData s) stamp) in
  if String.eqb (City md) EmptyString
  then err o = Some (notFoundMessage (sanitizeCityName city)) /\ cacheAfter o = cache
  else err o = None /\ weather o = setLastUpdated stamp md.
Proof.
  intros Hmiss Hmd Hs o.
  destruct (co_merged _ _ (reachable_coordinated s Hs) md Hmd) as (_ & _ & ->).
  unfold o. rewrite GetWeatherData_refresh by exact Hmiss. cbv zeta.
  cbn [received clockAtStamp]. rewrite City_setLastUpdated.
  destruct (String.eqb _ _); split; reflexivity.
Qed.

(** *** The plain-text formatter *)

Lemma weatherTextPieces_TemperatureMax verbs w v :
  weatherTextPieces verbs (setTemperatureMax v w) = weatherTextPieces verbs w.
Proof. destruct w; reflexivity. Qed.

Lemma append_assoc_r (a b c : string) : (a +:+ b) +:+ c = a +:+ (b +:+ c).
Proof.
  induction a as [|x a IH]; [reflexivity|].
  change (String x ((a +:+ b) +:+ c) = String x (a +:+ (b +:+ c))).
  f_equal. exact IH.
Qed.

Lemma Contains_inside (a s b : string) : Contains (a +:+ (s +:+ b)) s = true.
Proof. apply Contains_append_l, Contains_here, prefix_append. Qed.

(** C10. For every weather record, and whatever the number verbs print,
    the plain-text rendering is the first three pieces of the output, then
    the line "Päivän alin: " with the TemperatureMin value (a plus sign
    when it is above zero, its [%.1f] print, the degree sign and C), then
    the line "Päivän ylin: " with the same TemperatureMin value, then the
    remaining pieces: both lines occur in the output, and they are its
    fourth and fifth pieces. The rendering does not depend on
    TemperatureMax: records that differ in that field only are rendered
    the same. *)
Theorem C10_text_shows_TemperatureMin_twice :
  forall (verbs : Verbs) (weather : WeatherData),
    let shown :=
      (if PrimFloat.ltb 0%float (TemperatureMin weather)
       then "+"%string else EmptyString)
      +:+ fmt_1f verbs (TemperatureMin weather) +:+ "°C" in
    nth_error (weatherTextPieces verbs weather) 3
    = Some ("Päivän alin: "
              +:+ temperatureWithSign verbs (TemperatureMin weather) +:+ nl)
    /\ nth_error (weatherTextPieces verbs weather) 4
       = Some ("Päivän ylin: "
                 +:+ temperatureWithSign verbs (TemperatureMin weather) +:+ nl)
    /\ (forall v : float,
          weatherTextOutput verbs (setTemperatureMax v weather)
          = weatherTextOutput verbs weather)
    /\ (forall weather' : WeatherData,
          sameButTemperatureMax weather weather' ->
          weatherTextOutput verbs weather' = weatherTextOutput verbs weather)
    /\ temperatureWithSign verbs (TemperatureMin weather) = shown
    /\ weatherTextOutput verbs weather
       = fold_left String.append (firstn 3 (weatherTextPieces verbs weather))
           EmptyString
         +:+ ("Päivän alin: " +:+ shown +:+ nl)
         +:+ ("Päivän ylin: " +:+ shown +:+ nl)
         +:+ fold_left String.append (skipn 5 (weatherTextPieces verbs weather))
               EmptyString
    /\ Contains (weatherTextOutput verbs weather)
         ("Päivän alin: " +:+ shown +:+ nl) = true
    /\ Contains (weatherTextOutput verbs weather)
         ("Päivän ylin: " +:+ shown +:+ nl) = true.
Proof.
  intros verbs weather shown.
  split; [reflexivity|]. split; [reflexivity|].
  assert (Hset : forall v w, weatherTextOutput verbs (setTemperatureMax v w)
                             = weatherTextOutput verbs w).
  { intros v w. unfold weatherTextOutput.
    rewrite weatherTextPieces_TemperatureMax. reflexivity. }
  split; [intros v; apply Hset|].
  split.
  { intros weather' Hsame. unfold sameButTemperatureMax in Hsame.
    rewrite <- (Hset 0%float weather'), <- Hsame. apply Hset. }
  assert (Hshown : temperatureWithSign verbs (TemperatureMin weather) = shown).
  { unfold temperatureWithSign, shown.
    destruct (PrimFloat.ltb 0%float (TemperatureMin weather)); reflexivity. }
  assert (Hout : weatherTextOutput verbs weather
                 = fold_left String.append
                     (firstn 3 (weatherTextPieces verbs weather)) EmptyString
                   +:+ ("Päivän alin: " +:+ shown +:+ nl)
                   +:+ ("Päivän ylin: " +:+ shown +:+ nl)
                   +:+ fold_left String.append
                         (skipn 5 (weatherTextPieces verbs weather)) EmptyString).
  { unfold weatherTextOutput, weatherTextPieces.
    cbn [fold_left firstn skipn]. rewrite Hshown.
    rewrite !append_assoc_r. reflexivity. }
  split; [exact Hshown|]. split; [exact Hout|]. split.
  - rewrite Hout. apply Contains_inside.
  - rewrite Hout. rewrite <- (append_assoc_r (fold_left _ _ _)).
    apply Contains_inside.
Qed.

Lemma C10_text_shows_TemperatureMin_twice_witness :
  sameButTemperatureMax turkuForeca (setTemperatureMax 25%float turkuForeca)
  /\ weatherTextOutput sampleVerbs (setTemperatureMax 25%float turkuForeca)
     = weatherTextOutput sampleVerbs turkuForeca.
Proof.
  split; [reflexivity|].
  destruct (C10_text_shows_TemperatureMin_twice sampleVerbs turkuForeca)
    as (_ & _ & _ & Hsame & _).
  apply Hsame. reflexivity.
Defined.

(** A record whose maximum is above zero and whose minimum is zero: the
    "Päivän ylin" line prints the minimum. *)
Example text_ylin_prints_minimum :
  PrimFloat.ltb 0%float (TemperatureMax turkuForeca) = true
  /\ nth_error (weatherTextPieces sampleVerbs turkuForeca) 4
     = Some ("Päivän ylin: nonpos°C" +:+ nl).
Proof. split; reflexivity. Qed.

(** ** Further properties *)

(** *** The merger, beyond the precedence rules *)

Lemma mergeFrom_untouched md data :
  RainChance (mergeFrom md data) = RainChance md
  /\ LastUpdated (mergeFrom md data) = LastUpdated md.
Proof.
  revert md. induction data as [|d data IH]; intros md; [split; reflexivity|].
  rewrite mergeFrom_cons. destruct (IH (mergeStep md d)) as [-> ->].
  split; reflexivity.
Qed.

(** X1. The merge never takes over a rain chance or a time stamp: whatever
    the partial records hold, the merged rainChance is 0 and the merged
    lastUpdated is the zero time. *)
Theorem merge_drops_RainChance_and_LastUpdated :
  forall data : list WeatherData,
    RainChance (mergeWeatherData data) = 0
    /\ LastUpdated (mergeWeatherData data) = 0.
Proof. intros data. apply (mergeFrom_untouched WeatherData_zero data). Qed.

Lemma firstNonEmpty_all_empty l :
  Forall (fun s => s = EmptyString) l -> firstNonEmpty l = EmptyString.
Proof.
  induction 1 as [|s l Hs _ IH]; [reflexivity|].
  subst s. exact IH.
Qed.

(** X2. When exactly one record of the sequence has a value for a string
    field, the merged field is that value, wherever the record stands in
    the sequence. *)
Theorem merge_single_supplier_any_position :
  forall (f : StringField) (before after : list WeatherData) (d : WeatherData),
    Forall (fun x => getString f x = EmptyString) (before ++ after) ->
    getString f (mergeWeatherData (before ++ d :: after)) = getString f d.
Proof.
  intros f before after d Hall.
  apply Forall_app in Hall. destruct Hall as [Hb Ha].
  rewrite getString_merge, map_app. simpl.
  unfold firstNonEmpty. rewrite firstSuch_app.
  assert (Hnone : forall l, Forall (fun x => getString f x = EmptyString) l ->
                            existsb nonEmptyString (map (getString f) l) = false).
  { induction 1 as [|x l Hx _ IH]; [reflexivity|]. simpl. rewrite Hx, IH. reflexivity. }
  rewrite (Hnone before Hb). simpl.
  destruct (nonEmptyString (getString f d)) eqn:Hd; [reflexivity|].
  rewrite firstSuch_none by (apply Hnone, Ha).
  symmetry. apply nonEmptyString_false, Hd.
Qed.

Lemma merge_single_supplier_any_position_witness :
  Forall (fun x => getString FCity x = EmptyString)
    ([turkuAmpparit] ++ [turkuMoisio])
  /\ getString FCity (mergeWeatherData ([turkuAmpparit] ++ turkuForeca :: [turkuMoisio]))
     = getString FCity turkuForeca.
Proof.
  assert (H : Forall (fun x => getString FCity x = EmptyString)
                ([turkuAmpparit] ++ [turkuMoisio])).
  { repeat constructor. }
  split; [exact H|].
  apply (merge_single_supplier_any_position FCity [turkuAmpparit] [turkuMoisio]
           turkuForeca H).
Defined.

Lemma In_allStringFields f : In f allStringFields.
Proof. destruct f; simpl; tauto. Qed.

Lemma In_allFloatFields f : In f allFloatFields.
Proof. destruct f; simpl; tauto. Qed.

Lemma In_allIntFields f : In f allIntFields.
Proof. destruct f; simpl; tauto. Qed.

Lemma disjointFields_spec a b :
  disjointFields a b = true ->
  (forall f, nonEmptyString (getString f a) && nonEmptyString (getString f b) = false)
  /\ (forall f, nonZeroFloat64 (getFloat f a) && nonZeroFloat64 (getFloat f b) = false)
  /\ (forall f, nonZeroInt (getInt f a) && nonZeroInt (getInt f b) = false)
  /\ nonNil (HourlyForecast a) && nonNil (HourlyForecast b) = false.
Proof.
  unfold disjointFields. intros H.
  apply andb_prop in H. destruct H as [H Hh].
  apply andb_prop in H. destruct H as [H Hi].
  apply andb_prop in H. destruct H as [Hs Hf].
  rewrite forallb_forall in Hs, Hf, Hi.
  repeat split.
  - intros f. apply negb_true_iff, Hs, In_allStringFields.
  - intros f. apply negb_true_iff, Hf, In_allFloatFields.
  - intros f. apply negb_true_iff, Hi, In_allIntFields.
  - apply negb_true_iff, Hh.
Qed.

Lemma forallb_pointwise {A : Type} (p q : A -> bool) (l : list A) :
  (forall x, p x = q x) -> forallb p l = forallb q l.
Proof.
  intros H. induction l as [|x l IH]; [reflexivity|].
  simpl. rewrite H, IH. reflexivity.
Qed.

Lemma disjointFields_sym a b : disjointFields a b = disjointFields b a.
Proof.
  unfold disjointFields. f_equal; [f_equal; [f_equal|]|];
    first [ apply forallb_pointwise; intros f; f_equal; apply andb_comm
          | f_equal; apply andb_comm ].
Qed.

Lemma chooseNonEmptyString_comm e a b :
  nonEmptyString a && nonEmptyString b = false ->
  chooseNonEmptyString (chooseNonEmptyString e a) b
  = chooseNonEmptyString (chooseNonEmptyString e b) a.
Proof.
  unfold chooseNonEmptyString. intros H.
  destruct (nonEmptyString e) eqn:He.
  - rewrite He. reflexivity.
  - destruct (nonEmptyString a) eqn:Ha, (nonEmptyString b) eqn:Hb;
      try discriminate;
      try (apply nonEmptyString_false in Ha; subst a);
      try (apply nonEmptyString_false in Hb; subst b);
      reflexivity.
Qed.

Lemma chooseNonZeroFloat64_comm e a b :
  nonZeroFloat64 a && nonZeroFloat64 b = false ->
  chooseNonZeroFloat64 (chooseNonZeroFloat64 e a) b
  = chooseNonZeroFloat64 (chooseNonZeroFloat64 e b) a.
Proof.
  unfold chooseNonZeroFloat64. intros H.
  destruct (nonZeroFloat64 a), (nonZeroFloat64 b); try discriminate; reflexivity.
Qed.

Lemma mergeStep_comm md a b :
  disjointFields a b = true ->
  mergeStep (mergeStep md a) b = mergeStep (mergeStep md b) a.
Proof.
  intros H. apply disjointFields_spec in H. destruct H as (Hs & Hf & Hi & Hh).
  unfold mergeStep. cbn [City ObservationHour WeatherSummary Temperature
    TemperatureFeelsLike TemperatureMin TemperatureMax Rainfall Snowfall
    WindSpeed RainChance TemperatureTomorrow TemperatureMinTomorrow Sunrise
    Sunset DayLength LastUpdated HourlyForecast].
  f_equal.
  - apply chooseNonEmptyString_comm, (Hs FCity).
  - specialize (Hi FObservationHour). simpl in Hi.
    destruct (nonZeroInt (ObservationHour a)), (nonZeroInt (ObservationHour b));
      try discriminate; reflexivity.
  - apply chooseNonEmptyString_comm, (Hs FWeatherSummary).
  - apply chooseNonZeroFloat64_comm, (Hf FTemperature).
  - apply chooseNonZeroFloat64_comm, (Hf FTemperatureFeelsLike).
  - apply chooseNonZeroFloat64_comm, (Hf FTemperatureMin).
  - apply chooseNonZeroFloat64_comm, (Hf FTemperatureMax).
  - apply chooseNonZeroFloat64_comm, (Hf FRainfall).
  - apply chooseNonZeroFloat64_comm, (Hf FSnowfall).
  - specialize (Hi FWindSpeed). simpl in Hi.
    destruct (nonZeroInt (WindSpeed a)), (nonZeroInt (WindSpeed b));
      try discriminate; reflexivity.
  - apply chooseNonZeroFloat64_comm, (Hf FTemperatureTomorrow).
  - apply chooseNonZeroFloat64_comm, (Hf FTemperatureMinTomorrow).
  - apply chooseNonEmptyString_comm, (Hs FSunrise).
  - apply chooseNonEmptyString_comm, (Hs FSunset).
  - apply chooseNonEmptyString_comm, (Hs FDayLength).
  - destruct (nonNil (HourlyForecast a)), (nonNil (HourlyForecast b));
      try discriminate; reflexivity.
Qed.

Lemma forallb_Permutation {A : Type} (p : A -> bool) (l l' : list A) :
  l ≡ₚ l' -> forallb p l = true -> forallb p l' = true.
Proof.
  intros HP H. rewrite forallb_forall in *. intros x Hx.
  apply H. apply list_elem_of_In. rewrite HP. apply list_elem_of_In, Hx.
Qed.

Lemma mergeFrom_Permutation data data' :
  data ≡ₚ data' ->
  pairwiseDisjoint data = true ->
  pairwiseDisjoint data' = true
  /\ forall md, mergeFrom md data = mergeFrom md data'.
Proof.
  induction 1 as [|x l l' HP IH|x y l|l l' l'' HP1 IH1 HP2 IH2]; intros Hd.
  - split; [reflexivity | reflexivity].
  - simpl in Hd. apply andb_prop in Hd. destruct Hd as [Hx Hl].
    destruct (IH Hl) as [Hl' Hm]. split.
    + simpl. rewrite Hl', (forallb_Permutation _ _ _ HP Hx). reflexivity.
    + intros md. rewrite !mergeFrom_cons. apply Hm.
  - simpl in Hd.
    apply andb_prop in Hd. destruct Hd as [Hy Hd].
    apply andb_prop in Hy. destruct Hy as [Hyx Hyl].
    apply andb_prop in Hd. destruct Hd as [Hxl Hl]. split.
    + simpl. rewrite disjointFields_sym, Hyx, Hxl, Hyl, Hl. reflexivity.
    + intros md. rewrite !mergeFrom_cons. f_equal.
      apply mergeStep_comm. exact Hyx.
  - destruct (IH1 Hd) as [Hd' Hm1]. destruct (IH2 Hd') as [Hd'' Hm2].
    split; [exact Hd''|]. intros md. rewrite Hm1. apply Hm2.
Qed.

(** X3. When no two records of the sequence compete for a field (for each
    merged field, at most one of any two records has a value that passes
    the test of the loop), the merged record does not depend on the order
    of the records: every permutation of the sequence merges to the same
    record. *)
Theorem merge_order_irrelevant_when_disjoint :
  forall data data' : list WeatherData,
    data ≡ₚ data' ->
    pairwiseDisjoint data = true ->
    mergeWeatherData data' = mergeWeatherData data.
Proof.
  intros data data' HP Hd.
  destruct (mergeFrom_Permutation data data' HP Hd) as [_ H].
  symmetry. apply H.
Qed.

Lemma merge_order_irrelevant_when_disjoint_witness :
  [turkuForeca; turkuAmpparit; turkuMoisio] ≡ₚ [turkuMoisio; turkuForeca; turkuAmpparit]
  /\ pairwiseDisjoint [turkuForeca; turkuAmpparit; turkuMoisio] = true
  /\ mergeWeatherData [turkuMoisio; turkuForeca; turkuAmpparit]
     = mergeWeatherData [turkuForeca; turkuAmpparit; turkuMoisio].
Proof.
  assert (HP : [turkuForeca; turkuAmpparit; turkuMoisio]
               ≡ₚ [turkuMoisio; turkuForeca; turkuAmpparit]).
  { change ([turkuForeca; turkuAmpparit] ++ [turkuMoisio]
            ≡ₚ [turkuMoisio] ++ [turkuForeca; turkuAmpparit]).
    apply Permutation_app_comm. }
  split; [exact HP|]. split; [reflexivity|].
  apply (merge_order_irrelevant_when_disjoint _ _ HP). reflexivity.
Defined.

(** *** The cache, beyond freshness *)

Lemma GetWeatherData_key (cache : gmap string WeatherData) city city' w :
  sanitizeCityName city' = sanitizeCityName city ->
  GetWeatherData cache city' w = GetWeatherData cache city w.
Proof. intros H. unfold GetWeatherData. rewrite H. reflexivity. Qed.

(** X4. A record stored by a successful refresh for one spelling of a city
    is served as it is, with no request to a source, to a later call for
    any spelling with the same normalised form while the record is younger
    than the ttl; once it is at least the ttl old, the later call refreshes
    again. *)
Theorem cache_round_trip_across_spellings :
  forall (cache : gmap string WeatherData) (city city' : string) (w w' : World),
    sanitizeCityName city' = sanitizeCityName city ->
    cacheHit cache (sanitizeCityName city) (clockAtCheck w) = false ->
    City (mergeWeatherData (received w)) <> EmptyString ->
    let o := GetWeatherData cache city w in
    (clockAtCheck w' - clockAtStamp w < cacheDuration ->
     GetWeatherData (cacheAfter o) city' w'
     = mkOutcome (weather o) None (cacheAfter o) [])
    /\ (cacheDuration <= clockAtCheck w' - clockAtStamp w ->
        requested (GetWeatherData (cacheAfter o) city' w') <> []).
Proof.
  intros cache city city' w w' Hkey Hmiss Hcity o.
  destruct (GetWeatherData_stored_then_served cache city w w' Hmiss Hcity)
    as (_ & _ & Hfresh & Hstale).
  split; intros Hage; rewrite (GetWeatherData_key _ city city' w' Hkey).
  - apply Hfresh, Hage.
  - apply Hstale, Hage.
Qed.

Lemma cache_round_trip_across_spellings_witness :
  GetWeatherData (cacheAfter (GetWeatherData ∅ "Hyvinkää" oneRecordArrives))
    "Hyvinkaa" soonAfter
  = mkOutcome (weather (GetWeatherData ∅ "Hyvinkää" oneRecordArrives)) None
      (cacheAfter (GetWeatherData ∅ "Hyvinkää" oneRecordArrives)) [].
Proof.
  apply (cache_round_trip_across_spellings ∅ "Hyvinkää" "Hyvinkaa"
           oneRecordArrives soonAfter); [reflexivity | reflexivity | | reflexivity].
  vm_compute. discriminate.
Defined.

(** X5. A call changes at most the cache entry under the normalised form
    of its city and never removes an entry; the entry it writes is the
    record it returns, which has a non-empty city and is stamped with the
    clock read after the merge. *)
Theorem GetWeatherData_cache_footprint :
  forall (cache : gmap string WeatherData) (city : string) (w : World),
    let o := GetWeatherData cache city w in
    (forall key : string,
        key <> sanitizeCityName city -> cacheAfter o !! key = cache !! key)
    /\ (forall key : string, is_Some (cache !! key) -> is_Some (cacheAfter o !! key))
    /\ (cacheAfter o = cache
        \/ (cacheAfter o = <[sanitizeCityName city := weather o]> cache
            /\ err o = None
            /\ City (weather o) <> EmptyString
            /\ LastUpdated (weather o) = clockAtStamp w)).
Proof.
  intros cache city w o. unfold o, GetWeatherData.
  destruct (cacheHit cache (sanitizeCityName city) (clockAtCheck w)).
  - cbn [cacheAfter]. split; [reflexivity|]. split; [auto | left; reflexivity].
  - destruct (String.eqb_spec
                (City (setLastUpdated (clockAtStamp w)
                         (mergeWeatherData (received w)))) EmptyString) as [E|E].
    + cbn [cacheAfter]. split; [reflexivity|]. split; [auto | left; reflexivity].
    + cbn [cacheAfter weather err]. split; [|split].
      * intros key Hkey. apply lookup_insert_ne. congruence.
      * intros key Hsome.
        destruct (decide (sanitizeCityName city = key)) as [<-|Hne].
        -- rewrite lookup_insert_eq. eauto.
        -- rewrite lookup_insert_ne by exact Hne. exact Hsome.
      * right. split; [reflexivity|]. split; [reflexivity|].
        split; [exact E | apply LastUpdated_setLastUpdated].
Qed.

(** X6. On a cache in which every entry has a non-empty city, a call leaves
    a cache in which every entry has one, and every record it returns
    without an error has a non-empty city; with an error it returns the
    zero record. *)
Theorem GetWeatherData_returns_a_city :
  forall (cache : gmap string WeatherData) (city : string) (w : World),
    map_Forall (fun _ e => City e <> EmptyString) cache ->
    let o := GetWeatherData cache city w in
    map_Forall (fun _ e => City e <> EmptyString) (cacheAfter o)
    /\ (err o = None -> City (weather o) <> EmptyString)
    /\ (err o <> None -> weather o = WeatherData_zero).
Proof.
  intros cache city w Hinv o. unfold o, GetWeatherData.
  destruct (cacheHit cache (sanitizeCityName city) (clockAtCheck w)) eqn:Hhit.
  - cbn [cacheAfter weather err]. split; [exact Hinv|]. split; [|congruence].
    intros _. rewrite cacheHit_lookup in Hhit.
    destruct (cache !! sanitizeCityName city) as [e|] eqn:He; [|discriminate].
    simpl. apply (Hinv _ _ He).
  - destruct (String.eqb_spec
                (City (setLastUpdated (clockAtStamp w)
                         (mergeWeatherData (received w)))) EmptyString) as [E|E];
      cbn [cacheAfter weather err].
    + split; [exact Hinv|]. split; [discriminate | reflexivity].
    + split; [|split; [intros _; exact E | congruence]].
      apply map_Forall_insert_2; assumption.
Qed.

Lemma GetWeatherData_returns_a_city_witness :
  map_Forall (fun _ e => City e <> EmptyString) turkuCache
  /\ City (weather (GetWeatherData turkuCache "Turku" soonAfter)) <> EmptyString.
Proof.
  assert (H : map_Forall (fun _ e => City e <> EmptyString) turkuCache).
  { unfold turkuCache. apply map_Forall_singleton. vm_compute. discriminate. }
  split; [exact H|].
  apply (GetWeatherData_returns_a_city turkuCache "Turku" soonAfter H).
  reflexivity.
Defined.

Lemma GetWeatherData_cache_footprint_witness :
  "Turku"%string <> sanitizeCityName "Hyvinkää"
  /\ cacheAfter (GetWeatherData turkuCache "Hyvinkää" oneRecordArrives) !! "Turku"
     = turkuCache !! "Turku".
Proof.
  assert (H : "Turku"%string <> sanitizeCityName "Hyvinkää")
    by (vm_compute; discriminate).
  split; [exact H|].
  apply (GetWeatherData_cache_footprint turkuCache "Hyvinkää" oneRecordArrives).
  exact H.
Defined.

(** *** The coordinator: no blocked send, no deadlock, bounded schedules *)

Lemma run_app events events' s :
  run (events ++ events') s
  = match run events s with Some s' => run events' s' | None => None end.
Proof.
  revert s. induction events as [|e events IH]; intros s; simpl; [reflexivity|].
  destruct (step s e); [apply IH | reflexivity].
Qed.

Lemma reachable_step s e s' : reachable s -> step s e = Some s' -> reachable s'.
Proof.
  intros [events Hrun] Hstep. exists (events ++ [e]).
  rewrite run_app, Hrun. simpl. rewrite Hstep. reflexivity.
Qed.

Lemma reachable_run s events s' : reachable s -> run events s = Some s' -> reachable s'.
Proof.
  intros [events0 Hrun0] Hrun. exists (events0 ++ events).
  rewrite run_app, Hrun0. exact Hrun.
Qed.

(** Once the closer has exited, the channel is closed. *)
Lemma exited_closed_step s e s' :
  (closer s = Exited -> closed s = true) -> step s e = Some s' ->
  (closer s' = Exited -> closed s' = true).
Proof.
  intros H Hstep. destruct e as [i | i d | i | | | | ]; simpl in Hstep.
  - destruct (fetchers s !! i) as [[| |]|]; try discriminate.
    injection Hstep as <-. exact H.
  - destruct (fetchers s !! i) as [[| |]|]; try discriminate.
    destruct (length (buffer s) <? length (fetchers s))%nat; try discriminate.
    injection Hstep as <-. exact H.
  - destruct (fetchers s !! i) as [[| |]|]; try discriminate.
    injection Hstep as <-. exact H.
  - destruct (closer s); try discriminate.
    destruct (wg s =? 0); try discriminate.
    injection Hstep as <-. simpl. discriminate.
  - destruct (closer s); try discriminate.
    injection Hstep as <-. reflexivity.
  - destruct (caller s); try discriminate.
    destruct (buffer s); try discriminate.
    injection Hstep as <-. exact H.
  - destruct (caller s); try discriminate.
    destruct (buffer s); try discriminate.
    destruct (closed s); try discriminate.
    injection Hstep as <-. exact H.
Qed.

Lemma exited_closed_run events : forall s s',
  (closer s = Exited -> closed s = true) -> run events s = Some s' ->
  (closer s' = Exited -> closed s' = true).
Proof.
  induction events as [|e events IH]; intros s s' H Hrun; simpl in Hrun.
  - injection Hrun as <-. exact H.
  - destruct (step s e) as [s1|] eqn:He; [|discriminate].
    eapply IH; [eapply exited_closed_step; eassumption | exact Hrun].
Qed.

Lemma reachable_exited_closed s :
  reachable s -> closer s = Exited -> closed s = true.
Proof.
  intros [events Hrun]. eapply exited_closed_run; [|exact Hrun].
  simpl. discriminate.
Qed.

Lemma omap_delivered_cons g (l : list Fetcher) :
  omap delivered (g :: l)
  = match delivered g with
    | Some d => d :: omap delivered l
    | None => omap delivered l
    end.
Proof. reflexivity. Qed.

Lemma delivered_at_most (l : list Fetcher) :
  (length (omap delivered l) <= length l)%nat.
Proof.
  induction l as [|g l IH]; [simpl; lia|].
  rewrite omap_delivered_cons. destruct (delivered g); simpl; lia.
Qed.

Lemma delivered_fewer (fs : list Fetcher) i :
  fs !! i = Some Fetching -> (length (omap delivered fs) < length fs)%nat.
Proof.
  revert i. induction fs as [|g fs IH]; intros i Hi; [discriminate|].
  rewrite omap_delivered_cons. destruct i as [|i].
  - simpl in Hi. injection Hi as ->. simpl.
    pose proof (delivered_at_most fs). lia.
  - simpl in Hi. specialize (IH i Hi). destruct (delivered g); simpl; lia.
Qed.

Lemma pending_positive (fs : list Fetcher) i f :
  fs !! i = Some f -> terminated f = false -> (0 < pending fs)%nat.
Proof.
  unfold pending. revert i. induction fs as [|g fs IH]; intros i Hi Hf; [discriminate|].
  destruct i as [|i]; simpl in *.
  - injection Hi as ->. rewrite Hf. simpl. lia.
  - specialize (IH i Hi Hf). destruct (negb (terminated g)); simpl; lia.
Qed.

Lemma pending_find (fs : list Fetcher) :
  (0 < pending fs)%nat ->
  exists i, fs !! i = Some Fetching \/ exists d, fs !! i = Some (Sent d).
Proof.
  unfold pending. induction fs as [|g fs IH]; simpl; [lia|].
  destruct g as [|d|o]; simpl.
  - intros _. exists 0%nat. left. reflexivity.
  - intros _. exists 0%nat. right. exists d. reflexivity.
  - intros H. destruct (IH H) as [i Hi]. exists (S i). exact Hi.
Qed.

(** X7. In every state a request can reach, a fetcher that has not sent
    yet can send at once: the buffer of the channel has room for its
    record, and the channel is not closed, so that the send neither blocks
    nor panics. *)
Theorem send_never_blocks :
  forall (s : Coordinator) (i : nat) (data : WeatherData),
    reachable s ->
    fetchers s !! i = Some Fetching ->
    closed s = false
    /\ (length (buffer s) < length weatherSources)%nat
    /\ step s (FetcherSends i data)
       = Some (mkCoordinator (<[i := Sent data]> (fetchers s)) (wg s)
                 (buffer s ++ [data]) (closed s) (closer s)
                 (weatherData s) (caller s)).
Proof.
  intros s i data Hs Hi.
  destruct (reachable_coordinated s Hs) as [Hn Hwg Hwk Hcl Hmg Hrec].
  assert (Hroom : (length (buffer s) < length (fetchers s))%nat).
  { pose proof (delivered_fewer _ i Hi) as Hlt.
    apply Permutation_length in Hrec. rewrite length_app in Hrec.
    rewrite <- Hrec in Hlt. lia. }
  split; [|split].
  - destruct (closed s) eqn:Hc; [|reflexivity].
    assert (Hw : closer s <> Waiting) by (rewrite (Hcl eq_refl); discriminate).
    specialize (Hwk Hw).
    pose proof (pending_positive _ i Fetching Hi eq_refl). lia.
  - rewrite <- Hn. exact Hroom.
  - simpl. rewrite Hi.
    destruct (Nat.ltb_spec (length (buffer s)) (length (fetchers s))); [reflexivity | lia].
Qed.

Lemma send_never_blocks_witness :
  reachable (launch 3)
  /\ fetchers (launch 3) !! 1%nat = Some Fetching
  /\ closed (launch 3) = false.
Proof.
  assert (Hr : reachable (launch 3)) by (exists []; reflexivity).
  split; [exact Hr|]. split; [reflexivity|].
  apply (send_never_blocks (launch 3) 1 turkuAmpparit Hr). reflexivity.
Defined.

Lemma enabled_while_collecting s :
  reachable s -> caller s = Collecting ->
  exists (e : Event) (s' : Coordinator), step s e = Some s'.
Proof.
  intros Hs Hc.
  destruct (reachable_coordinated s Hs) as [Hn Hwg Hwk Hcl Hmg Hrec].
  destruct (Nat.eq_dec (pending (fetchers s)) 0%nat) as [Hp|Hp].
  - (* every fetcher has terminated: the closer or the caller moves *)
    destruct (closer s) eqn:Hcs.
    + exists CloserWakes. simpl. rewrite Hcs.
      assert (Hz : (wg s =? 0) = true) by (apply Z.eqb_eq; lia).
      rewrite Hz. eauto.
    + exists CloserCloses. simpl. rewrite Hcs. eauto.
    + pose proof (reachable_exited_closed s Hs Hcs) as Hcd.
      destruct (buffer s) as [|d rest] eqn:Hb.
      * exists CallerMerges. simpl. rewrite Hc, Hb, Hcd. eauto.
      * exists CallerReceives. simpl. rewrite Hc, Hb. eauto.
  - destruct (pending_find (fetchers s)) as [i [Hi | [d Hi]]]; [lia | |].
    + exists (FetcherFails i). simpl. rewrite Hi. eauto.
    + exists (FetcherReturns i). simpl. rewrite Hi. eauto.
Qed.

(** X8. A request never deadlocks: a state it can reach in which no
    goroutine can take a step is a state in which the caller has merged
    what it collected and every fetcher has terminated. *)
Theorem request_never_deadlocks :
  forall s : Coordinator,
    reachable s ->
    (forall e : Event, step s e = None) ->
    exists md : WeatherData,
      caller s = Merged md
      /\ md = mergeWeatherData (weatherData s)
      /\ Forall (fun f => terminated f = true) (fetchers s).
Proof.
  intros s Hs Hstuck.
  destruct (caller s) as [|md] eqn:Hc.
  - destruct (enabled_while_collecting s Hs Hc) as (e & s' & He).
    rewrite Hstuck in He. discriminate.
  - destruct (reachable_coordinated s Hs) as [Hn Hwg Hwk Hcl Hmg Hrec].
    destruct (Hmg md Hc) as (Hcd & Hb & Hm).
    exists md. split; [reflexivity|]. split; [exact Hm|].
    apply pending_zero.
    assert (Hw : closer s <> Waiting) by (rewrite (Hcl Hcd); discriminate).
    specialize (Hwk Hw). lia.
Qed.

Lemma request_never_deadlocks_witness :
  exists md : WeatherData,
    caller sampleEnd = Merged md
    /\ md = mergeWeatherData (weatherData sampleEnd)
    /\ Forall (fun f => terminated f = true) (fetchers sampleEnd).
Proof.
  apply (request_never_deadlocks sampleEnd).
  - exists sampleSchedule. reflexivity.
  - intros e. destruct e as [[|[|[|i]]] | [|[|[|i]]] d | [|[|[|i]]] | | | | ];
      reflexivity.
Defined.

Lemma fetcherWork_insert (fs : list Fetcher) i f f' :
  fs !! i = Some f ->
  (list_sum (map fetcherWork (<[i := f']> fs)) + fetcherWork f
   = list_sum (map fetcherWork fs) + fetcherWork f')%nat.
Proof.
  revert i. induction fs as [|g fs IH]; intros i Hi; [discriminate|].
  destruct i as [|i]; simpl in *.
  - injection Hi as ->. lia.
  - specialize (IH i Hi). lia.
Qed.

Lemma workLeft_step s e s' :
  step s e = Some s' -> (workLeft s' < workLeft s)%nat.
Proof.
  intros Hstep. unfold workLeft.
  destruct e as [i | i d | i | | | | ]; simpl in Hstep.
  - destruct (fetchers s !! i) as [[| |]|] eqn:Hi; try discriminate.
    injection Hstep as <-. simpl.
    pose proof (fetcherWork_insert _ i Fetching (Finished None) Hi). simpl in *. lia.
  - destruct (fetchers s !! i) as [[| |]|] eqn:Hi; try discriminate.
    destruct (length (buffer s) <? length (fetchers s))%nat; try discriminate.
    injection Hstep as <-. simpl. rewrite length_app. simpl.
    pose proof (fetcherWork_insert _ i Fetching (Sent d) Hi). simpl in *. lia.
  - destruct (fetchers s !! i) as [[|d|]|] eqn:Hi; try discriminate.
    injection Hstep as <-. simpl.
    pose proof (fetcherWork_insert _ i (Sent d) (Finished (Some d)) Hi). simpl in *. lia.
  - destruct (closer s); try discriminate.
    destruct (wg s =? 0); try discriminate.
    injection Hstep as <-. simpl. lia.
  - destruct (closer s); try discriminate.
    injection Hstep as <-. simpl. lia.
  - destruct (caller s); try discriminate.
    destruct (buffer s); try discriminate.
    injection Hstep as <-. simpl. lia.
  - destruct (caller s); try discriminate.
    destruct (buffer s); try discriminate.
    destruct (closed s); try discriminate.
    injection Hstep as <-. simpl. lia.
Qed.

Lemma workLeft_run events : forall s s',
  run events s = Some s' -> (length events + workLeft s' <= workLeft s)%nat.
Proof.
  induction events as [|e events IH]; intros s s' Hrun; simpl in Hrun.
  - injection Hrun as <-. simpl. lia.
  - destruct (step s e) as [s1|] eqn:He; [|discriminate].
    specialize (IH _ _ Hrun). pose proof (workLeft_step _ _ _ He). simpl. lia.
Qed.

Lemma workLeft_launch n : workLeft (launch n) = (3 * n + 3)%nat.
Proof.
  unfold workLeft. simpl.
  assert (H : list_sum (map fetcherWork (replicate n Fetching)) = (3 * n)%nat).
  { induction n as [|n IH]; simpl; [reflexivity | rewrite IH; lia]. }
  rewrite H. lia.
Qed.

(** X9. Every schedule of a request is at most twelve events long (three
    per source and three for the closer and the caller), and from every
    state a request can reach some schedule leads on to the merge: a
    request always can, and after boundedly many steps must, finish. *)
Theorem request_finishes_within_bound :
  forall (events : list Event) (s : Coordinator),
    run events (launch (length weatherSources)) = Some s ->
    (length events <= 12)%nat
    /\ exists (events' : list Event) (s' : Coordinator) (md : WeatherData),
        run events' s = Some s' /\ caller s' = Merged md.
Proof.
  intros events s Hrun. split.
  - pose proof (workLeft_run _ _ _ Hrun) as H.
    rewrite workLeft_launch in H. simpl in H. lia.
  - assert (Hs : reachable s) by (exists events; exact Hrun).
    clear Hrun events.
    remember (workLeft s) as n eqn:Hn.
    revert s Hn Hs. induction n as [n IH] using lt_wf_ind. intros s Hn Hs.
    destruct (caller s) as [|md] eqn:Hc.
    + destruct (enabled_while_collecting s Hs Hc) as (e & s1 & He).
      pose proof (workLeft_step _ _ _ He) as Hlt.
      destruct (IH (workLeft s1) ltac:(lia) s1 eq_refl (reachable_step _ _ _ Hs He))
        as (events' & s' & md & Hrun' & Hmd).
      exists (e :: events'), s', md. simpl. rewrite He. split; assumption.
    + exists [], s, md. split; [reflexivity | exact Hc].
Qed.

Lemma request_finishes_within_bound_witness :
  (length sampleSchedule <= 12)%nat
  /\ exists (events' : list Event) (s' : Coordinator) (md : WeatherData),
      run events' sampleEnd = Some s' /\ caller s' = Merged md.
Proof.
  apply (request_finishes_within_bound sampleSchedule sampleEnd). reflexivity.
Defined.

(** *** The parsers *)

Lemma hourlyPoint_cases lib data s :
  hourlyPoint lib data s = data
  \/ exists p, appendedPoint p
               /\ hourlyPoint lib data s
                  = setHourlyForecast (appendSlice (HourlyForecast data) p) data.
Proof.
  unfold hourlyPoint.
  destruct (cleanTemperatureString lib _) as [temp|]; [|left; reflexivity].
  destruct (Atoi lib _) as [windSpeed|]; [|left; reflexivity].
  destruct (ParseFloat lib _) as [rainfall|]; [|left; reflexivity].
  right. eexists. split; [|reflexivity].
  split; [reflexivity|]. split; [reflexivity|]. simpl.
  destruct (String.eqb _ "d000"); [auto|].
  destruct (String.eqb _ "n000"); auto.
Qed.

Lemma setHourlyForecast_twice a b w :
  setHourlyForecast a (setHourlyForecast b w) = setHourlyForecast a w.
Proof. destruct w; reflexivity. Qed.

Lemma setHourlyForecast_same w : setHourlyForecast (HourlyForecast w) w = w.
Proof. destruct w; reflexivity. Qed.

Lemma HourlyForecast_set a w : HourlyForecast (setHourlyForecast a w) = a.
Proof. destruct w; reflexivity. Qed.

Lemma appendedPoints_append s p :
  appendedPoints s -> appendedPoint p -> appendedPoints (appendSlice s p).
Proof.
  intros Hs Hp. destruct s as [hs|]; simpl.
  - destruct Hs as [_ Hall]. split.
    + intros E. apply app_eq_nil in E. destruct E as [_ E]. discriminate.
    + apply Forall_app. split; [exact Hall | constructor; [exact Hp | constructor]].
  - split; [discriminate | constructor; [exact Hp | constructor]].
Qed.

(** The [Each] loop changes the hourly forecast only, and only by
    appending points. *)
Lemma hours_loop lib (hours : list Element) : forall data,
  appendedPoints (HourlyForecast data) ->
  exists hourly,
    appendedPoints hourly
    /\ fold_left (hourlyPoint lib) hours data = setHourlyForecast hourly data.
Proof.
  induction hours as [|s hours IH]; intros data Hd; simpl.
  - exists (HourlyForecast data). split; [exact Hd|].
    symmetry. apply setHourlyForecast_same.
  - destruct (hourlyPoint_cases lib data s) as [-> | (p & Hp & ->)].
    + apply IH, Hd.
    + destruct (IH (setHourlyForecast (appendSlice (HourlyForecast data) p) data))
        as (hourly & Hh & ->).
      * rewrite HourlyForecast_set. apply appendedPoints_append; assumption.
      * exists hourly. split; [exact Hh | apply setHourlyForecast_twice].
Qed.

Lemma parseForecaData_record lib doc d :
  parseForecaData lib doc = Some d -> forecaRecord d.
Proof.
  unfold parseForecaData, forecaRecord.
  destruct (cleanTemperatureString lib _) as [tempMax|]; [|discriminate].
  destruct (cleanTemperatureString lib _) as [tempMin|]; [|discriminate].
  destruct (Atoi lib _) as [windSpeed|]; [|discriminate].
  intros H. injection H as <-. eauto.
Qed.

Lemma parseAmpparitData_record lib doc d :
  parseAmpparitData lib doc = Gives d -> ampparitRecord d.
Proof.
  unfold parseAmpparitData, ampparitRecord.
  destruct (String.eqb_spec (allText doc ".current-weather__location") EmptyString)
    as [E|Hcity]; [discriminate|].
  destruct (cleanTemperatureString lib _) as [temperature|]; [|discriminate].
  destruct (cleanTemperatureString lib _) as [feelsLike|]; [|discriminate].
  destruct (ParseFloat lib _) as [rainfall|]; [|discriminate].
  destruct (Atoi lib _) as [hour|]; [|discriminate].
  destruct (Slice _ 0 24) as [hours|]; [|discriminate].
  match goal with
  | |- context [fold_left (hourlyPoint lib) ?hs ?data] =>
      destruct (hours_loop lib hs data) as (hourly & Hh & ->); [exact I|]
  end.
  destruct (cleanTemperatureString lib _) as [tomorrow|]; [|discriminate].
  destruct (cleanTemperatureString lib _) as [tomorrowMin|]; [|discriminate].
  intros H. injection H as <-.
  exists (allText doc ".current-weather__location"), temperature, feelsLike,
    rainfall, hour, hourly, tomorrow, tomorrowMin.
  split; [exact Hcity|]. split; [exact Hh | reflexivity].
Qed.

Lemma parseMoisioData_record doc : exists d,
  parseMoisioData doc = Some d /\ moisioRecord d.
Proof. eexists. split; [reflexivity|]. unfold moisioRecord. eauto. Qed.

Lemma nonZeroFloat64_zero : nonZeroFloat64 0%float = false.
Proof. reflexivity. Qed.

Ltac disjoint_shapes :=
  unfold disjointFields, allStringFields, allFloatFields, allIntFields;
  cbn [forallb getString getFloat getInt City ObservationHour WeatherSummary
       Temperature TemperatureFeelsLike TemperatureMin TemperatureMax Rainfall
       Snowfall WindSpeed RainChance TemperatureTomorrow TemperatureMinTomorrow
       Sunrise Sunset DayLength LastUpdated HourlyForecast
       setCity setObservationHour setWeatherSummary setTemperature
       setTemperatureFeelsLike setTemperatureMin setTemperatureMax setRainfall
       setWindSpeed setTemperatureTomorrow setTemperatureMinTomorrow setSunrise
       setSunset setDayLength setHourlyForecast WeatherData_zero];
  rewrite ?nonZeroFloat64_zero;
  change (nonEmptyString EmptyString) with false;
  change (nonZeroInt 0) with false;
  change (@nonNil Hourly.HourlyForecast None) with false;
  rewrite ?andb_false_r, ?andb_false_l; reflexivity.

Lemma disjoint_foreca_ampparit a b :
  forecaRecord a -> ampparitRecord b -> disjointFields a b = true.
Proof.
  intros (tmax & tmin & ws & sm & ->)
         (city & t & fl & r & h & hf & tt & tmt & _ & _ & ->).
  disjoint_shapes.
Qed.

Lemma disjoint_foreca_moisio a b :
  forecaRecord a -> moisioRecord b -> disjointFields a b = true.
Proof.
  intros (tmax & tmin & ws & sm & ->) (sr & ss & dl & ->). disjoint_shapes.
Qed.

Lemma disjoint_ampparit_moisio a b :
  ampparitRecord a -> moisioRecord b -> disjointFields a b = true.
Proof.
  intros (city & t & fl & r & h & hf & tt & tmt & _ & _ & ->) (sr & ss & dl & ->).
  disjoint_shapes.
Qed.

(** When no goroutine panics, the records sent are those of the sources
    that succeeded, in the order Foreca, Ampparit, Moisio, each of the
    shape of its parser. *)
Lemma sentRecords_split lib web city sent :
  sentRecords lib web city = Some sent ->
  exists rf ra rm : option WeatherData,
    sent = optionList rf ++ optionList ra ++ optionList rm
    /\ ra = given (fetchSource web city ("https://www.ampparit.com/saa/"%string,
                                         parseAmpparitData lib))
    /\ fetchSource web city ("https://www.ampparit.com/saa/"%string,
                             parseAmpparitData lib) <> Panics
    /\ (forall d, rf = Some d -> forecaRecord d)
    /\ (forall d, ra = Some d -> ampparitRecord d)
    /\ (forall d, rm = Some d -> moisioRecord d).
Proof.
  unfold sentRecords. cbn [zip zip_with weatherSources weatherParsers map existsb omap].
  set (af := fetchSource web city ("https://www.foreca.fi/Finland/"%string,
                                   fun doc => attempt (parseForecaData lib doc))).
  set (aa := fetchSource web city ("https://www.ampparit.com/saa/"%string,
                                   parseAmpparitData lib)).
  set (am := fetchSource web city
               ("http://www.moisio.fi/taivas/aurinko.php?paikka="%string,
                fun doc => attempt (parseMoisioData doc))).
  intros H.
  exists (given af), (given aa), (given am).
  assert (Hnp : panicked af || (panicked aa || (panicked am || false)) = false).
  { destruct (panicked af || (panicked aa || (panicked am || false)));
      [discriminate | reflexivity]. }
  rewrite Hnp in H. injection H as <-.
  split; [|split; [reflexivity|split; [|split; [|split]]]].
  - simpl. destruct (given af), (given aa), (given am); reflexivity.
  - intros E. rewrite E in Hnp. simpl in Hnp.
    rewrite orb_true_r in Hnp. discriminate.
  - unfold af, fetchSource. cbn [fst snd]. intros d.
    destruct (web _) as [doc|]; [|discriminate].
    destruct (parseForecaData lib doc) as [d'|] eqn:E; [|discriminate].
    simpl. intros H. injection H as <-. eapply parseForecaData_record, E.
  - unfold aa, fetchSource. cbn [fst snd]. intros d.
    destruct (web _) as [doc|]; [|discriminate].
    destruct (parseAmpparitData lib doc) as [d'| |] eqn:E; try discriminate.
    simpl. intros H. injection H as <-. eapply parseAmpparitData_record, E.
  - unfold am, fetchSource. cbn [fst snd]. intros d.
    destruct (web _) as [doc|]; [|discriminate].
    destruct (parseMoisioData_record doc) as (d' & -> & Hd').
    simpl. intros H. injection H as <-. exact Hd'.
Qed.

Lemma sentRecords_pairwiseDisjoint lib web city sent :
  sentRecords lib web city = Some sent -> pairwiseDisjoint sent = true.
Proof.
  intros Hsent.
  destruct (sentRecords_split lib web city sent Hsent)
    as (rf & ra & rm & -> & _ & _ & Hf & Ha & Hm).
  destruct rf as [f|], ra as [a|], rm as [m|]; simpl;
    rewrite ?(disjoint_foreca_ampparit f a), ?(disjoint_foreca_moisio f m),
      ?(disjoint_ampparit_moisio a m); auto.
Qed.

Lemma merge_received_sent lib web city sent received :
  sentRecords lib web city = Some sent ->
  received ≡ₚ sent ->
  mergeWeatherData received = mergeWeatherData sent.
Proof.
  intros Hsent HP.
  destruct (mergeFrom_Permutation sent received) as [_ H].
  - symmetry. exact HP.
  - eapply sentRecords_pairwiseDisjoint, Hsent.
  - symmetry. apply H.
Qed.

(** X10. The three parsers set disjoint fields, so the record a refresh
    merges does not depend on the order in which the goroutines deliver:
    whatever the pages on which no parser panics, every arrival order of
    the records sent merges to the record of the order of the sources. *)
Theorem parsed_records_merge_in_any_order :
  forall (lib : GoStrings) (web : string -> option Document) (city : string)
         (sent received : list WeatherData),
    sentRecords lib web city = Some sent ->
    received ≡ₚ sent ->
    mergeWeatherData received = mergeWeatherData sent.
Proof.
  intros lib web city sent received Hsent HP.
  eapply merge_received_sent; eassumption.
Qed.

Lemma turkuSent_sent : sentRecords sampleStrings sampleWeb "Turku" = Some turkuSent.
Proof. reflexivity. Qed.

(** On the sample web the three sources deliver, Ampparit with the
    twenty-three readable ones of its first twenty-four hour elements; on
    the web with the short page Ampparit's parser panics. *)
Example sample_pages :
  length turkuSent = 3%nat
  /\ (exists d hs, parseAmpparitData sampleStrings ampparitPage = Gives d
                   /\ HourlyForecast d = Some hs /\ length hs = 23%nat)
  /\ parseAmpparitData sampleStrings shortAmpparitPage = Panics
  /\ sentRecords sampleStrings shortWeb "Turku" = None.
Proof.
  split; [reflexivity|]. split; [|split; reflexivity].
  eexists. eexists. split; [reflexivity|]. split; reflexivity.
Qed.

Lemma parsed_records_merge_in_any_order_witness :
  sentRecords sampleStrings sampleWeb "Turku" = Some turkuSent
  /\ rev turkuSent ≡ₚ turkuSent
  /\ mergeWeatherData (rev turkuSent) = mergeWeatherData turkuSent.
Proof.
  assert (HP : rev turkuSent ≡ₚ turkuSent) by (symmetry; apply Permutation_rev).
  split; [exact turkuSent_sent|]. split; [exact HP|].
  apply (parsed_records_merge_in_any_order sampleStrings sampleWeb "Turku"
           turkuSent (rev turkuSent) turkuSent_sent HP).
Defined.

Lemma nonEmptyString_true s : s <> EmptyString -> nonEmptyString s = true.
Proof. destruct s; [contradiction | reflexivity]. Qed.

Lemma City_forecaRecord d : forecaRecord d -> City d = EmptyString.
Proof. intros (tmax & tmin & ws & sm & ->). reflexivity. Qed.

Lemma City_moisioRecord d : moisioRecord d -> City d = EmptyString.
Proof. intros (sr & ss & dl & ->). reflexivity. Qed.

Lemma City_ampparitRecord d : ampparitRecord d -> City d <> EmptyString.
Proof.
  intros (city & t & fl & r & h & hf & tt & tmt & Hc & _ & ->). exact Hc.
Qed.

Lemma City_merge_sent lib web city sent :
  sentRecords lib web city = Some sent ->
  let ampparit := fetchSource web city ("https://www.ampparit.com/saa/"%string,
                                        parseAmpparitData lib) in
  ampparit <> Panics
  /\ City (mergeWeatherData sent)
     = match ampparit with Gives d => City d | _ => EmptyString end
  /\ (forall d, ampparit = Gives d -> City d <> EmptyString).
Proof.
  intros Hsent ampparit.
  destruct (sentRecords_split lib web city sent Hsent)
    as (rf & ra & rm & -> & Era & Hnp & Hf & Ha & Hm).
  fold ampparit in Era, Hnp. split; [exact Hnp|].
  assert (Hgives : forall d, ampparit = Gives d -> City d <> EmptyString).
  { intros d Hd. apply City_ampparitRecord, Ha. rewrite Era, Hd. reflexivity. }
  split; [|exact Hgives].
  change (City (mergeWeatherData ?l)) with (getString FCity (mergeWeatherData l)).
  rewrite getString_merge. unfold firstNonEmpty. subst ra.
  destruct rf as [f|], ampparit as [a| |], rm as [m|]; simpl;
    rewrite ?(City_forecaRecord f), ?(City_moisioRecord m) by auto; simpl;
    try reflexivity; try contradiction;
    rewrite (nonEmptyString_true (City a)) by (apply Hgives; reflexivity);
    reflexivity.
Qed.

(** X11. Only the Ampparit parser sets the city, so on pages on which no
    parser panics a refresh succeeds exactly when the Ampparit source
    delivers a record, whatever the other two sources do and whatever the
    order of arrival; the city of the record returned is then the one
    Ampparit's page names, and when Ampparit's goroutine ends with an
    error the call fails with the not-found message. *)
Theorem refresh_succeeds_iff_ampparit_delivers :
  forall (lib : GoStrings) (web : string -> option Document)
         (cache : gmap string WeatherData) (city : string) (w : World)
         (sent : list WeatherData),
    cacheHit cache (sanitizeCityName city) (clockAtCheck w) = false ->
    sentRecords lib web (sanitizeCityName city) = Some sent ->
    received w ≡ₚ sent ->
    let o := GetWeatherData cache city w in
    let ampparit := fetchSource web (sanitizeCityName city)
                      ("https://www.ampparit.com/saa/"%string,
                       parseAmpparitData lib) in
    ampparit <> Panics
    /\ (err o = None <-> exists d, ampparit = Gives d)
    /\ (forall d, ampparit = Gives d ->
                  err o = None /\ City (weather o) = City d)
    /\ (ampparit = GivesError ->
        err o = Some (notFoundMessage (sanitizeCityName city))).
Proof.
  intros lib web cache city w sent Hmiss Hsent HP o ampparit.
  destruct (City_merge_sent lib web (sanitizeCityName city) sent Hsent)
    as (Hnp & Hcity & Hne).
  fold ampparit in Hnp, Hcity, Hne.
  rewrite <- (merge_received_sent _ _ _ _ _ Hsent HP) in Hcity.
  split; [exact Hnp|].
  unfold o. rewrite GetWeatherData_refresh by exact Hmiss. cbv zeta.
  rewrite City_setLastUpdated, Hcity.
  destruct ampparit as [a| |].
  - specialize (Hne a eq_refl).
    destruct (String.eqb_spec (City a) EmptyString) as [E|_]; [contradiction|].
    cbn [err weather]. split; [split; eauto|]. split; [|discriminate].
    intros d Hd. injection Hd as <-. split; [reflexivity|].
    rewrite City_setLastUpdated. exact Hcity.
  - simpl. split; [split; [discriminate | intros [x Hx]; discriminate]|].
    split; [discriminate | reflexivity].
  - contradiction.
Qed.

Lemma refresh_succeeds_iff_ampparit_delivers_witness :
  cacheHit ∅ (sanitizeCityName "Turku") (clockAtCheck turkuArrivals) = false
  /\ sentRecords sampleStrings sampleWeb (sanitizeCityName "Turku") = Some turkuSent
  /\ received turkuArrivals ≡ₚ turkuSent
  /\ err (GetWeatherData ∅ "Turku" turkuArrivals) = None.
Proof.
  assert (HP : received turkuArrivals ≡ₚ turkuSent)
    by (symmetry; apply Permutation_rev).
  assert (Hmiss : cacheHit ∅ (sanitizeCityName "Turku") (clockAtCheck turkuArrivals)
                  = false) by reflexivity.
  assert (Hsent : sentRecords sampleStrings sampleWeb (sanitizeCityName "Turku")
                  = Some turkuSent) by reflexivity.
  split; [exact Hmiss|]. split; [exact Hsent|]. split; [exact HP|].
  destruct (refresh_succeeds_iff_ampparit_delivers sampleStrings sampleWeb ∅
              "Turku" turkuArrivals turkuSent Hmiss Hsent HP) as (_ & _ & H & _).
  eapply H. reflexivity.
Defined.

Lemma lastSuch_all_default {A : Type} (p : A -> bool) dflt (l : list A) :
  Forall (fun x => x = dflt) l -> lastSuch p dflt l = dflt.
Proof.
  induction 1 as [|x l Hx _ IH]; [reflexivity|].
  simpl. rewrite IH, Hx. destruct (existsb p l), (p dflt); reflexivity.
Qed.

Lemma sentRecords_shapes lib web city sent :
  sentRecords lib web city = Some sent ->
  Forall (fun d => forecaRecord d \/ ampparitRecord d \/ moisioRecord d) sent.
Proof.
  intros Hsent.
  destruct (sentRecords_split lib web city sent Hsent)
    as (rf & ra & rm & -> & _ & _ & Hf & Ha & Hm).
  repeat apply Forall_app_2;
    [destruct rf | destruct ra | destruct rm]; simpl; constructor; auto.
Qed.

Lemma record_shape_fields d :
  forecaRecord d \/ ampparitRecord d \/ moisioRecord d ->
  Snowfall d = 0%float /\ appendedPoints (HourlyForecast d).
Proof.
  intros [(tmax & tmin & ws & sm & ->)
         |[(city & t & fl & r & h & hf & tt & tmt & _ & Hh & ->)
          |(sr & ss & dl & ->)]]; split; try reflexivity; try exact I.
  exact Hh.
Qed.

Lemma appendedPoints_nilOrPopulated s : appendedPoints s -> nilOrPopulated s = true.
Proof. destruct s as [[|p hs]|]; simpl; [intros [H _]; contradiction | reflexivity..]. Qed.

(** X12. Whatever the pages on which no parser panics and whatever the
    order of arrival, the record a refresh merges from the records of the
    parsers has snowfall 0 and rain chance 0, no parser supplying either;
    its hourly forecast is nil or holds at least one point, is the whole
    forecast of the last record to supply a non-empty sequence, and in
    each of its points the feels-like temperature equals the temperature
    and the rain chance is 0. *)
Theorem refreshed_record_fields :
  forall (lib : GoStrings) (web : string -> option Document) (city : string)
         (sent received : list WeatherData),
    sentRecords lib web city = Some sent ->
    received ≡ₚ sent ->
    let md := mergeWeatherData received in
    Snowfall md = 0%float
    /\ RainChance md = 0
    /\ nilOrPopulated (HourlyForecast md) = true
    /\ HourlyForecast md = lastNonEmptyForecast (map HourlyForecast received)
    /\ (forall hs p, HourlyForecast md = Some hs -> In p hs ->
                     Hourly.TemperatureFeelsLike p = Hourly.Temperature p
                     /\ Hourly.RainChance p = 0).
Proof.
  intros lib web city sent received Hsent HP md.
  assert (Hshape : Forall (fun d => Snowfall d = 0%float
                                    /\ appendedPoints (HourlyForecast d)) received).
  { rewrite HP. eapply Forall_impl; [eapply sentRecords_shapes, Hsent|].
    intros d Hd. apply record_shape_fields, Hd. }
  assert (Hpts : appendedPoints (HourlyForecast md)).
  { destruct (HourlyForecast md) as [hs|] eqn:Hmd; [|exact I].
    destruct (HourlyForecast_merge_source received hs Hmd)
      as (before & d & after & -> & Hd & _).
    apply Forall_app in Hshape. destruct Hshape as [_ Hshape].
    apply Forall_cons in Hshape. destruct Hshape as [[_ Hdp] _].
    rewrite Hd in Hdp. exact Hdp. }
  split; [|split; [|split; [|split]]].
  - change (Snowfall md) with (getFloat FSnowfall (mergeWeatherData received)).
    rewrite getFloat_merge. apply lastSuch_all_default.
    apply Forall_map. eapply Forall_impl; [exact Hshape|].
    intros d [Hd _]. exact Hd.
  - apply (mergeFrom_untouched WeatherData_zero received).
  - apply appendedPoints_nilOrPopulated, Hpts.
  - unfold md. rewrite HourlyForecast_merge.
    unfold lastNonNilForecast, lastNonEmptyForecast.
    apply lastSuch_ext_in. intros s Hs.
    apply in_map_iff in Hs. destruct Hs as [d [<- Hd]].
    apply nilOrPopulated_agree, appendedPoints_nilOrPopulated.
    rewrite Forall_forall in Hshape. apply list_elem_of_In in Hd.
    apply (Hshape d Hd).
  - intros hs p Hmd Hp. rewrite Hmd in Hpts. destruct Hpts as [_ Hall].
    rewrite Forall_forall in Hall. apply list_elem_of_In in Hp.
    destruct (Hall p Hp) as (H1 & H2 & _). split; assumption.
Qed.

Lemma refreshed_record_fields_witness :
  sentRecords sampleStrings sampleWeb "Turku" = Some turkuSent
  /\ rev turkuSent ≡ₚ turkuSent
  /\ Snowfall (mergeWeatherData (rev turkuSent)) = 0%float
  /\ exists hs, HourlyForecast (mergeWeatherData (rev turkuSent)) = Some hs
                /\ length hs = 23%nat.
Proof.
  assert (HP : rev turkuSent ≡ₚ turkuSent) by (symmetry; apply Permutation_rev).
  split; [exact turkuSent_sent|]. split; [exact HP|]. split.
  - apply (refreshed_record_fields sampleStrings sampleWeb "Turku" turkuSent
             (rev turkuSent) turkuSent_sent HP).
  - eexists. split; reflexivity.
Defined.

(** *** The texts the parsers clean *)

Lemma prefix_dot c s :
  String.prefix "." (String c s) = Ascii.eqb c ".".
Proof.
  cbn [String.prefix]. destruct (ascii_dec "." c) as [<-|Hne].
  - destruct s; reflexivity.
  - destruct (Ascii.eqb_spec c "."); [congruence | reflexivity].
Qed.

Lemma splitFirst_dot s :
  Contains (splitFirst s ".") "." = false
  /\ (splitFirst s "." = s
      \/ exists rest, s = String.append (splitFirst s ".") (String "." rest)).
Proof.
  induction s as [|c s [IHc IHs]].
  - split; [reflexivity | left; reflexivity].
  - cbn [splitFirst]. rewrite prefix_dot.
    destruct (Ascii.eqb_spec c ".") as [->|Hne].
    + split; [reflexivity|]. right. exists s. reflexivity.
    + split.
      * cbn [Contains]. rewrite prefix_dot, IHc.
        destruct (Ascii.eqb_spec c "."); [contradiction | reflexivity].
      * destruct IHs as [->|[rest Hrest]]; [left; reflexivity|].
        right. exists rest.
        change (String c s
                = String c (String.append (splitFirst s ".") (String "." rest))).
        f_equal. exact Hrest.
Qed.

(** X13. The summary of a Foreca record is the first sentence of the
    page's summary text: it holds no full stop, and the text is the summary
    itself or the summary followed by a full stop and the rest. *)
Theorem foreca_summary_is_first_sentence :
  forall (lib : GoStrings) (doc : Document) (d : WeatherData),
    parseForecaData lib doc = Some d ->
    let text := firstText doc ".today .day .txt" in
    Contains (WeatherSummary d) "." = false
    /\ (WeatherSummary d = text
        \/ exists rest, text = String.append (WeatherSummary d) (String "." rest)).
Proof.
  intros lib doc d H text. unfold parseForecaData in H.
  destruct (cleanTemperatureString lib _) as [tempMax|]; [|discriminate].
  destruct (cleanTemperatureString lib _) as [tempMin|]; [|discriminate].
  destruct (Atoi lib _) as [windSpeed|]; [|discriminate].
  injection H as <-. cbn [WeatherSummary setWeatherSummary setWindSpeed
    setTemperatureMin setTemperatureMax WeatherData_zero].
  apply splitFirst_dot.
Qed.

Lemma foreca_summary_is_first_sentence_witness :
  exists d, parseForecaData sampleStrings forecaPage = Some d
            /\ WeatherSummary d = "Poutaa"%string
            /\ Contains (WeatherSummary d) "." = false.
Proof.
  eexists. split; [reflexivity|]. split; [reflexivity|].
  eapply (foreca_summary_is_first_sentence sampleStrings forecaPage). reflexivity.
Defined.

Lemma startsAt_one (a : ascii) (new : string) c s :
  startsAt (String c s) (String a EmptyString, new) = Ascii.eqb c a.
Proof.
  unfold startsAt. simpl. destruct (ascii_dec a c) as [->|Hne].
  - rewrite Ascii.eqb_refl. destruct s; reflexivity.
  - destruct (Ascii.eqb_spec c a); [congruence | reflexivity].
Qed.

Lemma units_unfold c s' :
  replaceFrom temperatureUnits 0 (String c s') =
  match s' with
  | EmptyString => stripUnit c EmptyString
  | String c' s'' =>
      if Ascii.eqb c byteC2 && Ascii.eqb c' byteB0
      then replaceFrom temperatureUnits 0 s''
      else stripUnit c (replaceFrom temperatureUnits 0 s')
  end.
Proof.
  unfold stripUnit.
  destruct s' as [|c' s''].
  - cbn [replaceFrom]. unfold temperatureUnits. cbn [List.find].
    change "°"%string with (String byteC2 (String byteB0 EmptyString)).
    rewrite startsAt_one_short, !startsAt_one.
    destruct (Ascii.eqb c "C"); [reflexivity|].
    destruct (Ascii.eqb c "F"); [reflexivity|].
    destruct (Ascii.eqb c ","); reflexivity.
  - cbn [replaceFrom]. unfold temperatureUnits. cbn [List.find].
    change "°"%string with (String byteC2 (String byteB0 EmptyString)).
    rewrite startsAt_two, !startsAt_one.
    destruct (Ascii.eqb c byteC2 && Ascii.eqb c' byteB0); [reflexivity|].
    destruct (Ascii.eqb c "C"); [reflexivity|].
    destruct (Ascii.eqb c "F"); [reflexivity|].
    destruct (Ascii.eqb c ","); reflexivity.
Qed.

Lemma units_strip_le n : forall s,
  (String.length s <= n)%nat -> replaceFrom temperatureUnits 0 s = stripUnits s.
Proof.
  induction n as [|n IH]; intros s Hn.
  - destruct s; [reflexivity | simpl in Hn; lia].
  - destruct s as [|c s']; [reflexivity|].
    rewrite units_unfold. destruct s' as [|c' s'']; [reflexivity|].
    simpl in Hn. cbn [stripUnits].
    rewrite (IH s'') by lia.
    rewrite (IH (String c' s'')) by (simpl; lia). reflexivity.
Qed.

Lemma Replace_temperatureUnits s : Replace temperatureUnits s = stripUnits s.
Proof. apply (units_strip_le (String.length s)). lia. Qed.

Lemma stripUnit_bytes c rest b :
  In b (list_ascii_of_string (stripUnit c rest)) ->
  (b <> "C"%char /\ b <> "F"%char /\ b <> ","%char)
  \/ In b (list_ascii_of_string rest).
Proof.
  unfold stripUnit.
  destruct (Ascii.eqb_spec c "C"); [auto|].
  destruct (Ascii.eqb_spec c "F"); [auto|].
  destruct (Ascii.eqb_spec c ",").
  - simpl. intros [<-|H]; [left; repeat split; discriminate | auto].
  - simpl. intros [<-|H]; [left; repeat split; assumption | auto].
Qed.

Lemma stripUnits_bytes_le n : forall s b,
  (String.length s <= n)%nat ->
  In b (list_ascii_of_string (stripUnits s)) ->
  b <> "C"%char /\ b <> "F"%char /\ b <> ","%char.
Proof.
  induction n as [|n IH]; intros s b Hn Hb.
  - destruct s; [contradiction | simpl in Hn; lia].
  - destruct s as [|c s']; [contradiction|].
    destruct s' as [|c' s'']; cbn [stripUnits] in Hb.
    + apply stripUnit_bytes in Hb. destruct Hb as [Hb|Hb]; [exact Hb | contradiction].
    + simpl in Hn.
      destruct (Ascii.eqb c byteC2 && Ascii.eqb c' byteB0).
      * apply (IH s'' b); [lia | exact Hb].
      * apply stripUnit_bytes in Hb. destruct Hb as [Hb|Hb]; [exact Hb|].
        apply (IH (String c' s'') b); [simpl; lia | exact Hb].
Qed.

Lemma comma_unfold c s' :
  replaceFrom [(","%string, "."%string)] 0 (String c s')
  = String (commaAsPoint c) (replaceFrom [(","%string, "."%string)] 0 s').
Proof.
  cbn [replaceFrom List.find]. rewrite startsAt_one. unfold commaAsPoint.
  destruct (Ascii.eqb c ","); reflexivity.
Qed.

Lemma stripUnit_commaAsPoint c rest :
  stripUnit (commaAsPoint c) rest = stripUnit c rest.
Proof.
  unfold commaAsPoint. destruct (Ascii.eqb_spec c ",") as [->|]; reflexivity.
Qed.

Lemma commaAsPoint_eqb c b :
  b <> ","%char -> b <> "."%char ->
  Ascii.eqb (commaAsPoint c) b = Ascii.eqb c b.
Proof.
  intros Hb1 Hb2. unfold commaAsPoint.
  destruct (Ascii.eqb_spec c ",") as [->|]; [|reflexivity].
  destruct (Ascii.eqb_spec "." b); [congruence|].
  destruct (Ascii.eqb_spec "," b); [congruence | reflexivity].
Qed.

Lemma stripUnits_cons2 c c' s :
  stripUnits (String c (String c' s))
  = if Ascii.eqb c byteC2 && Ascii.eqb c' byteB0
    then stripUnits s
    else stripUnit c (stripUnits (String c' s)).
Proof. reflexivity. Qed.

Lemma stripUnits_comma_le n : forall s,
  (String.length s <= n)%nat ->
  stripUnits (replaceFrom [(","%string, "."%string)] 0 s) = stripUnits s.
Proof.
  induction n as [|n IH]; intros s Hn.
  - destruct s; [reflexivity | simpl in Hn; lia].
  - destruct s as [|c s']; [reflexivity|].
    destruct s' as [|c' s''].
    + rewrite comma_unfold. apply stripUnit_commaAsPoint.
    + simpl in Hn.
      pose proof (IH (String c' s'') ltac:(simpl; lia)) as IH1.
      pose proof (IH s'' ltac:(lia)) as IH2.
      rewrite (comma_unfold c), (comma_unfold c'), !stripUnits_cons2.
      rewrite !commaAsPoint_eqb by (vm_compute; discriminate).
      rewrite <- (comma_unfold c'), IH1, IH2, stripUnit_commaAsPoint.
      reflexivity.
Qed.

(** X14. The text [cleanTemperatureString] hands on to be trimmed and
    parsed holds none of the bytes C, F and comma, whatever the text it was
    given; and a text is cleaned to the same result as the text with every
    comma written as a point. *)
Theorem cleanTemperatureString_units :
  forall (lib : GoStrings) (temperature : string),
    (forall b : ascii,
        In b (list_ascii_of_string (Replace temperatureUnits temperature)) ->
        b <> "C"%char /\ b <> "F"%char /\ b <> ","%char)
    /\ cleanTemperatureString lib (Replace [(","%string, "."%string)] temperature)
       = cleanTemperatureString lib temperature.
Proof.
  intros lib temperature. split.
  - intros b Hb. rewrite Replace_temperatureUnits in Hb.
    apply (stripUnits_bytes_le (String.length temperature) temperature b);
      [lia | exact Hb].
  - unfold cleanTemperatureString. rewrite !Replace_temperatureUnits.
    unfold Replace.
    rewrite (stripUnits_comma_le (String.length temperature)) by lia.
    reflexivity.
Qed.

Lemma cleanTemperatureString_units_witness :
  In ("5"%char) (list_ascii_of_string (Replace temperatureUnits "5,5°C"))
  /\ "5"%char <> "C"%char.
Proof.
  assert (H : In ("5"%char) (list_ascii_of_string (Replace temperatureUnits "5,5°C")))
    by (left; reflexivity).
  split; [exact H|].
  destruct (cleanTemperatureString_units sampleStrings "5,5°C") as [Hbytes _].
  apply (Hbytes "5"%char H).
Defined.

Example cleanTemperatureString_sample :
  Replace temperatureUnits "+5,5 °C" = "+5.5 "%string
  /\ cleanTemperatureString sampleStrings "5,5°C" = Some 5.5%float
  /\ cleanTemperatureString sampleStrings "n/a" = None.
Proof. repeat split. Qed.

(** *** The handler *)

(** X15. A request without a city, or with an empty one, is answered with
    the status 400 and "Missing 'city' parameter" alone: the cache is left
    as it is and no source is asked, whatever the cache holds. A request
    whose city is not found is answered with the status 500 and the
    not-found message that names the normalised city, and nothing else is
    written. *)
Theorem weatherHandler_errors :
  forall (verbs : Verbs) (out : Responder) (cache : gmap string WeatherData)
         (query : string -> string) (w : World),
    (query "city"%string = EmptyString ->
     weatherHandler verbs out cache query w
     = mkHandled [HttpError "Missing 'city' parameter" 400] cache [])
    /\ (query "city"%string <> EmptyString ->
        cacheHit cache (sanitizeCityName (query "city"%string)) (clockAtCheck w)
        = false ->
        City (mergeWeatherData (received w)) = EmptyString ->
        effects (weatherHandler verbs out cache query w)
        = [HttpError (notFoundMessage (sanitizeCityName (query "city"%string))) 500]
        /\ cacheLeft (weatherHandler verbs out cache query w) = cache).
Proof.
  intros verbs out cache query w. split.
  - intros Hcity. unfold weatherHandler. rewrite Hcity. reflexivity.
  - intros Hcity Hmiss Hempty. unfold weatherHandler.
    destruct (String.eqb_spec (query "city"%string) EmptyString) as [E|_];
      [contradiction|].
    rewrite GetWeatherData_refresh by exact Hmiss. cbv zeta.
    rewrite City_setLastUpdated, Hempty. split; reflexivity.
Qed.

Lemma weatherHandler_errors_witness :
  formatOnlyQuery "city"%string = EmptyString
  /\ weatherHandler sampleVerbs sampleResponder turkuCache formatOnlyQuery soonAfter
     = mkHandled [HttpError "Missing 'city' parameter" 400] turkuCache [].
Proof.
  split; [reflexivity|].
  apply (weatherHandler_errors sampleVerbs sampleResponder turkuCache
           formatOnlyQuery soonAfter).
  reflexivity.
Defined.

(** X16. Once the record is found, the first thing written is the status
    200, before any Content-Type is set: the text writer, taken for the
    format "text" alone, and the JSON writer, taken for every other
    format, both set their Content-Type after it, and a failure of the
    encoder is reported with [http.Error] after the 200 as well. *)
Theorem weatherHandler_writes_status_first :
  forall (verbs : Verbs) (out : Responder) (cache : gmap string WeatherData)
         (query : string -> string) (w : World),
    query "city"%string <> EmptyString ->
    err (GetWeatherData cache (query "city"%string) w) = None ->
    let record := weather (GetWeatherData cache (query "city"%string) w) in
    let written := effects (weatherHandler verbs out cache query w) in
    (query "format"%string = "text"%string ->
     written = WriteHeader 200 :: SetHeader "Content-Type" "text/plain"
               :: Write (weatherTextOutput verbs record) :: afterWrite out)
    /\ (query "format"%string <> "text"%string ->
        forall jsonData, Marshal out record = inl jsonData ->
        written = WriteHeader 200 :: SetHeader "Content-Type" "application/json"
                  :: Write jsonData :: afterWrite out)
    /\ (query "format"%string <> "text"%string ->
        forall e, Marshal out record = inr e ->
        written = [WriteHeader 200; HttpError e 500]).
Proof.
  intros verbs out cache query w Hcity Herr record written.
  unfold written, weatherHandler.
  destruct (String.eqb_spec (query "city"%string) EmptyString) as [E|_];
    [contradiction|].
  rewrite Herr. cbn [effects]. fold record.
  split; [|split].
  - intros ->. reflexivity.
  - intros Hf jsonData Hj.
    destruct (String.eqb_spec (query "format"%string) "text") as [E|_];
      [contradiction|].
    unfold weatherJSONHandler. rewrite Hj. reflexivity.
  - intros Hf e Hj.
    destruct (String.eqb_spec (query "format"%string) "text") as [E|_];
      [contradiction|].
    unfold weatherJSONHandler. rewrite Hj. reflexivity.
Qed.

Lemma weatherHandler_writes_status_first_witness :
  effects (weatherHandler sampleVerbs sampleResponder turkuCache turkuTextQuery
             soonAfter)
  = WriteHeader 200 :: SetHeader "Content-Type" "text/plain"
    :: Write (weatherTextOutput sampleVerbs
                (weather (GetWeatherData turkuCache "Turku" soonAfter)))
    :: afterWrite sampleResponder.
Proof.
  apply (weatherHandler_writes_status_first sampleVerbs sampleResponder
           turkuCache turkuTextQuery soonAfter);
    [vm_compute; discriminate | reflexivity | reflexivity].
Defined.

(** X17. Two requests for spellings of one city, the second while the
    record stored by the first is younger than the ttl: the second asks no
    source, leaves the cache as the first left it, and writes what the
    first request would have written with the second's result of
    [w.Write]: the same status, header and body, and the very same effects
    when [w.Write] fails or succeeds alike on both, the format being the
    same. *)
Theorem weatherHandler_repeats_from_cache :
  forall (verbs : Verbs) (marshal : WeatherData -> string + string)
         (writeErr writeErr' : option string)
         (cache : gmap string WeatherData)
         (query query' : string -> string) (w w' : World),
    query "city"%string <> EmptyString ->
    query' "city"%string <> EmptyString ->
    sanitizeCityName (query' "city"%string) = sanitizeCityName (query "city"%string) ->
    query' "format"%string = query "format"%string ->
    cacheHit cache (sanitizeCityName (query "city"%string)) (clockAtCheck w) = false ->
    City (mergeWeatherData (received w)) <> EmptyString ->
    clockAtCheck w' - clockAtStamp w < cacheDuration ->
    let out := mkResponder marshal writeErr in
    let out' := mkResponder marshal writeErr' in
    let first := weatherHandler verbs out cache query w in
    let second := weatherHandler verbs out' (cacheLeft first) query' w' in
    fetched first
    = map (fun URL => String.append URL (sanitizeCityName (query "city"%string)))
        weatherSources
    /\ fetched second = []
    /\ cacheLeft second = cacheLeft first
    /\ effects second = effects (weatherHandler verbs out' cache query w)
    /\ (writeErr' = writeErr -> effects second = effects first).
Proof.
  intros verbs marshal writeErr writeErr' cache query query' w w'
         Hc Hc' Hkey Hfmt Hmiss Hcity Hage out out' first second.
  destruct (GetWeatherData_stored_then_served cache (query "city"%string) w w'
              Hmiss Hcity) as (Herr & _ & Hfresh & _).
  specialize (Hfresh Hage).
  rewrite <- (GetWeatherData_key _ _ _ w' Hkey) in Hfresh.
  assert (Hrun : forall r,
             weatherHandler verbs r cache query w
             = mkHandled
                 (WriteHeader StatusOK
                  :: (if String.eqb (query "format"%string) "text"
                      then weatherTextHandler verbs r
                             (weather (GetWeatherData cache (query "city"%string) w))
                      else weatherJSONHandler r
                             (weather (GetWeatherData cache (query "city"%string) w))))
                 (cacheAfter (GetWeatherData cache (query "city"%string) w))
                 (requested (GetWeatherData cache (query "city"%string) w))).
  { intros r. unfold weatherHandler.
    destruct (String.eqb_spec (query "city"%string) EmptyString) as [E|_];
      [contradiction|].
    rewrite Herr. reflexivity. }
  assert (Hsecond : second
                    = mkHandled (effects (weatherHandler verbs out' cache query w))
                        (cacheLeft first) []).
  { unfold second, first. rewrite !Hrun. cbn [cacheLeft effects].
    unfold weatherHandler.
    destruct (String.eqb_spec (query' "city"%string) EmptyString) as [E|_];
      [contradiction|].
    rewrite Hfresh, Hfmt. reflexivity. }
  rewrite Hsecond. cbn [fetched cacheLeft effects].
  split; [|split; [reflexivity|split; [reflexivity|split; [reflexivity|]]]].
  - unfold first. rewrite Hrun. cbn [fetched].
    rewrite GetWeatherData_refresh by exact Hmiss. cbv zeta.
    destruct (String.eqb (City _) EmptyString); reflexivity.
  - intros ->. reflexivity.
Qed.

Lemma weatherHandler_repeats_from_cache_witness :
  let first := weatherHandler sampleVerbs sampleResponder ∅ turkuTextQuery
                 turkuArrivals in
  let second := weatherHandler sampleVerbs
                  (mkResponder (Marshal sampleResponder) (Some "broken pipe"%string))
                  (cacheLeft first) turkuTextQuery soonAfter in
  fetched second = []
  /\ effects second
     = effects (weatherHandler sampleVerbs
                  (mkResponder (Marshal sampleResponder) (Some "broken pipe"%string))
                  ∅ turkuTextQuery turkuArrivals)
  /\ effects second <> effects first.
Proof.
  intros first second.
  destruct (weatherHandler_repeats_from_cache sampleVerbs (Marshal sampleResponder)
              None (Some "broken pipe"%string) ∅
              turkuTextQuery turkuTextQuery turkuArrivals soonAfter)
    as (_ & H1 & _ & H2 & _);
    [vm_compute; discriminate | vm_compute; discriminate | reflexivity
    | reflexivity | reflexivity | vm_compute; discriminate | reflexivity | ].
  split; [exact H1|]. split; [exact H2|].
  vm_compute. discriminate.
Defined.

(** *** The plain-text writer, beyond the two temperature lines *)

(** X18. The plain-text rendering shows nothing of the hourly forecast,
    the rain chance and the time stamp, nor of the maximum temperature:
    two records that agree on every other field are rendered the same,
    whatever the number verbs print. *)
Theorem text_omits_forecast_and_rain_chance :
  forall (verbs : Verbs) (weather weather' : WeatherData),
    textFields weather = textFields weather' ->
    weatherTextOutput verbs weather' = weatherTextOutput verbs weather.
Proof.
  intros verbs weather weather' H.
  assert (Hf : forall w, weatherTextOutput verbs (textFields w)
                         = weatherTextOutput verbs w)
    by (intros w; destruct w; reflexivity).
  rewrite <- (Hf weather), <- (Hf weather'), H. reflexivity.
Qed.

Lemma text_omits_forecast_and_rain_chance_witness :
  textFields turkuAmpparit
  = textFields (setHourlyForecast (Some [h1; h2]) (setRainChance 80 turkuAmpparit))
  /\ weatherTextOutput sampleVerbs
       (setHourlyForecast (Some [h1; h2]) (setRainChance 80 turkuAmpparit))
     = weatherTextOutput sampleVerbs turkuAmpparit.
Proof.
  split; [reflexivity|].
  apply (text_omits_forecast_and_rain_chance sampleVerbs). reflexivity.
Defined.

(** *** The normalised name *)

Lemma prefix_two (a b c c' : ascii) (s : string) :
  String.prefix (String a (String b EmptyString)) (String c (String c' s))
  = Ascii.eqb c a && Ascii.eqb c' b.
Proof. apply (startsAt_two a b EmptyString c c' s). Qed.

Lemma prefix_two_short (a b c : ascii) :
  String.prefix (String a (String b EmptyString)) (String c EmptyString) = false.
Proof. apply (startsAt_one_short a b EmptyString c). Qed.

Lemma Contains_cons s sub c :
  Contains (String c s) sub = String.prefix sub (String c s) || Contains s sub.
Proof. reflexivity. Qed.

(** A folded string holds neither two-byte letter. *)
Lemma foldDiacritics_clean_le (b : ascii) n :
  b = byteA4 \/ b = byteB6 ->
  forall s, (String.length s <= n)%nat ->
            Contains (foldDiacritics s) (String byteC3 (String b EmptyString)) = false.
Proof.
  intros Hb. induction n as [|n IH]; intros s Hn.
  - destruct s; [reflexivity | simpl in Hn; lia].
  - destruct s as [|c s']; [reflexivity|].
    destruct s' as [|c' s''].
    + cbn [foldDiacritics]. rewrite Contains_cons, prefix_two_short. reflexivity.
    + simpl in Hn.
      assert (Hletter : forall l t, l = "a"%char \/ l = "o"%char ->
                Contains t (String byteC3 (String b EmptyString)) = false ->
                Contains (String l t) (String byteC3 (String b EmptyString)) = false).
      { intros l t Hl Ht. rewrite Contains_cons, Ht, orb_false_r.
        destruct t as [|h t']; [apply prefix_two_short|].
        rewrite prefix_two. destruct Hl as [->| ->]; reflexivity. }
      cbn [foldDiacritics].
      destruct (Ascii.eqb c byteC3 && Ascii.eqb c' byteA4) eqn:E1;
        [|destruct (Ascii.eqb c byteC3 && Ascii.eqb c' byteB6) eqn:E2].
      * apply Hletter; [auto | apply IH; lia].
      * apply Hletter; [auto | apply IH; lia].
      * change (Contains (String c (foldDiacritics (String c' s'')))
                  (String byteC3 (String b EmptyString)) = false).
        rewrite Contains_cons, (IH (String c' s'')) by (simpl; lia).
        rewrite orb_false_r.
        destruct (foldDiacritics_head c' s'') as (h & t & -> & Hh).
        rewrite prefix_two.
        destruct (Ascii.eqb c byteC3) eqn:Ec; [|reflexivity].
        simpl in E1, E2. simpl.
        destruct Hh as [->|[->| ->]]; destruct Hb as [->| ->];
          first [exact E1 | exact E2 | reflexivity].
Qed.

Lemma foldDiacritics_plain s :
  Contains s "ä" = false -> Contains s "ö" = false -> foldDiacritics s = s.
Proof.
  change "ä"%string with (String byteC3 (String byteA4 EmptyString)).
  change "ö"%string with (String byteC3 (String byteB6 EmptyString)).
  induction s as [|c s' IH]; intros Ha Ho; [reflexivity|].
  destruct s' as [|c' s'']; [reflexivity|].
  rewrite Contains_cons in Ha, Ho.
  apply orb_false_elim in Ha. destruct Ha as [Ha1 Ha2].
  apply orb_false_elim in Ho. destruct Ho as [Ho1 Ho2].
  rewrite prefix_two in Ha1, Ho1.
  change (foldDiacritics (String c (String c' s'')))
    with (if Ascii.eqb c byteC3 && Ascii.eqb c' byteA4
          then String "a" (foldDiacritics s'')
          else if Ascii.eqb c byteC3 && Ascii.eqb c' byteB6
               then String "o" (foldDiacritics s'')
               else String c (foldDiacritics (String c' s''))).
  rewrite Ha1, Ho1, (IH Ha2 Ho2). reflexivity.
Qed.

(** X19. The normalised name, which is the cache key and the end of every
    source URL, never holds an a-umlaut or an o-umlaut; and a name that
    holds neither is its own normalised form. *)
Theorem sanitizeCityName_result :
  forall city : string,
    Contains (sanitizeCityName city) "ä" = false
    /\ Contains (sanitizeCityName city) "ö" = false
    /\ (Contains city "ä" = false -> Contains city "ö" = false ->
        sanitizeCityName city = city).
Proof.
  intros city. rewrite !sanitizeCityName_fold. split; [|split].
  - apply (foldDiacritics_clean_le byteA4 (String.length city)); [auto | lia].
  - apply (foldDiacritics_clean_le byteB6 (String.length city)); [auto | lia].
  - apply foldDiacritics_plain.
Qed.

Lemma sanitizeCityName_result_witness :
  Contains "Turku" "ä" = false /\ Contains "Turku" "ö" = false
  /\ sanitizeCityName "Turku" = "Turku"%string.
Proof.
  split; [reflexivity|]. split; [reflexivity|].
  apply (sanitizeCityName_result "Turku"); reflexivity.
Defined.

(** *** The name in the not-found message *)

Lemma prefix_exists t : forall s,
  String.prefix t s = true <-> exists b, s = t +:+ b.
Proof.
  induction t as [|x t IH]; intros s.
  - split; [intros _; exists s; reflexivity | intros _; destruct s; reflexivity].
  - destruct s as [|c s].
    + split; [discriminate | intros [b Hb]; discriminate].
    + cbn [String.prefix]. destruct (ascii_dec x c) as [->|Hne].
      * rewrite IH. split; intros [b Hb]; exists b.
        -- change (String c s = String c (t +:+ b)). f_equal. exact Hb.
        -- change (String c s = String c (t +:+ b)) in Hb. congruence.
      * split; [discriminate|]. intros [b Hb].
        change (String c s = String x (t +:+ b)) in Hb. congruence.
Qed.

Lemma Contains_exists s : forall t,
  Contains s t = true <-> exists a b, s = a +:+ (t +:+ b).
Proof.
  induction s as [|c s IH]; intros t.
  - cbn [Contains]. rewrite orb_false_r, prefix_exists. split.
    + intros [b Hb]. exists EmptyString, b. exact Hb.
    + intros (a & b & Hab). destruct a; [exists b; exact Hab | discriminate].
  - rewrite Contains_cons. split.
    + intros H. apply orb_true_iff in H. destruct H as [H|H].
      * apply prefix_exists in H. destruct H as [b Hb].
        exists EmptyString, b. exact Hb.
      * apply IH in H. destruct H as (a & b & ->).
        exists (String c a), b. reflexivity.
    + intros (a & b & Hab). apply orb_true_iff. destruct a as [|x a].
      * left. apply prefix_exists. exists b. exact Hab.
      * right. apply IH. exists a, b.
        change (String c s = String x (a +:+ (t +:+ b))) in Hab. congruence.
Qed.

Lemma Contains_trans s t u :
  Contains s t = true -> Contains t u = true -> Contains s u = true.
Proof.
  intros Hst Htu. apply Contains_exists in Hst, Htu.
  destruct Hst as (a & b & ->). destruct Htu as (a' & b' & ->).
  apply Contains_exists. exists (a +:+ a'), (b' +:+ b).
  rewrite !append_assoc_r. reflexivity.
Qed.

Lemma Contains_other_byte c s (x y : ascii) :
  Ascii.eqb c x = false ->
  Contains (String c s) (String x (String y EmptyString))
  = Contains s (String x (String y EmptyString)).
Proof.
  intros Hc. rewrite Contains_cons.
  destruct s as [|c' s']; [rewrite prefix_two_short; reflexivity|].
  rewrite prefix_two, Hc. reflexivity.
Qed.

Lemma Contains_after_other_bytes a s (x y : ascii) :
  forallb (fun c => negb (Ascii.eqb c x)) (list_ascii_of_string a) = true ->
  Contains (a +:+ s) (String x (String y EmptyString))
  = Contains s (String x (String y EmptyString)).
Proof.
  induction a as [|c a IH]; intros H; [reflexivity|].
  simpl in H. apply andb_prop in H. destruct H as [Hc Ha].
  change (String c a +:+ s) with (String c (a +:+ s)).
  rewrite Contains_other_byte by (apply negb_true_iff, Hc). apply IH, Ha.
Qed.

Lemma Contains_before_other_byte s q (x y : ascii) :
  Ascii.eqb q x = false -> Ascii.eqb q y = false ->
  Contains s (String x (String y EmptyString)) = false ->
  Contains (s +:+ String q EmptyString) (String x (String y EmptyString)) = false.
Proof.
  intros Hqx Hqy. induction s as [|c s IH]; intros H.
  - change (EmptyString +:+ String q EmptyString) with (String q EmptyString).
    rewrite Contains_cons, prefix_two_short. reflexivity.
  - rewrite Contains_cons in H. apply orb_false_elim in H. destruct H as [Hp Hs].
    change (String c s +:+ String q EmptyString)
      with (String c (s +:+ String q EmptyString)).
    rewrite Contains_cons, (IH Hs), orb_false_r.
    destruct s as [|c' s'].
    + change (EmptyString +:+ String q EmptyString) with (String q EmptyString).
      rewrite prefix_two, Hqy. apply andb_false_r.
    + change (String c' s' +:+ String q EmptyString)
        with (String c' (s' +:+ String q EmptyString)).
      rewrite prefix_two. rewrite prefix_two in Hp. exact Hp.
Qed.

(** The message holds a two-byte letter only if the name in it does. *)
Lemma notFoundMessage_letters key (b : ascii) :
  b = byteA4 \/ b = byteB6 ->
  Contains key (String byteC3 (String b EmptyString)) = false ->
  Contains (notFoundMessage key) (String byteC3 (String b EmptyString)) = false.
Proof.
  intros Hb Hkey. unfold notFoundMessage.
  rewrite Contains_after_other_bytes by reflexivity.
  rewrite Contains_after_other_bytes by reflexivity.
  apply Contains_before_other_byte; [reflexivity | | exact Hkey].
  destruct Hb as [->| ->]; reflexivity.
Qed.

Lemma changed_name_has_letter city :
  sanitizeCityName city <> city ->
  Contains city "ä" = true \/ Contains city "ö" = true.
Proof.
  intros Hne. rewrite sanitizeCityName_fold in Hne.
  destruct (Contains city "ä") eqn:Ha; [left; reflexivity|].
  destruct (Contains city "ö") eqn:Ho; [right; reflexivity|].
  exfalso. apply Hne. apply foldDiacritics_plain; assumption.
Qed.

(** C6 (as amended). For every city name for which GetWeatherData fails,
    the failure is the not-found condition and its message is "No weather
    data found for city" followed by the normalised (diacritic-folded) name
    in double quotes: the message contains the normalised name, and it
    contains the name as the caller gave it if and only if normalisation
    leaves that name as it is. *)
Theorem C6_message_names_normalized_city :
  forall (cache : gmap string WeatherData) (city : string) (w : World)
         (msg : string),
    err (GetWeatherData cache city w) = Some msg ->
    msg = notFoundMessage (sanitizeCityName city)
    /\ Contains msg (sanitizeCityName city) = true
    /\ (sanitizeCityName city = city -> Contains msg city = true)
    /\ (Contains msg city = true -> sanitizeCityName city = city)
    /\ (sanitizeCityName city <> city -> Contains msg city = false).
Proof.
  intros cache city w msg H. apply GetWeatherData_err in H. subst msg.
  assert (Honly : Contains (notFoundMessage (sanitizeCityName city)) city = true ->
                  sanitizeCityName city = city).
  { intros Hin.
    destruct (string_dec (sanitizeCityName city) city) as [E|Hne]; [exact E|].
    exfalso.
    assert (Hclean : forall b, b = byteA4 \/ b = byteB6 ->
              Contains (notFoundMessage (sanitizeCityName city))
                (String byteC3 (String b EmptyString)) = false).
    { intros b Hb. apply notFoundMessage_letters; [exact Hb|].
      rewrite sanitizeCityName_fold.
      apply (foldDiacritics_clean_le b (String.length city)); [exact Hb | lia]. }
    destruct (changed_name_has_letter city Hne) as [Hl|Hl].
    - pose proof (Contains_trans _ _ _ Hin Hl) as Ht.
      change "ä"%string with (String byteC3 (String byteA4 EmptyString)) in Ht.
      rewrite Hclean in Ht by auto. discriminate.
    - pose proof (Contains_trans _ _ _ Hin Hl) as Ht.
      change "ö"%string with (String byteC3 (String byteB6 EmptyString)) in Ht.
      rewrite Hclean in Ht by auto. discriminate. }
  split; [reflexivity|]. split; [apply Contains_notFoundMessage|].
  split; [intros E; rewrite E; apply Contains_notFoundMessage|].
  split; [exact Honly|].
  intros Hne. destruct (Contains _ city) eqn:E; [|reflexivity].
  exfalso. apply Hne, Honly. reflexivity.
Qed.

Lemma C6_message_names_normalized_city_witness :
  (err (GetWeatherData ∅ "Turku" (allSourcesFail 1000))
   = Some (notFoundMessage "Turku")
   /\ sanitizeCityName "Turku" = "Turku"%string
   /\ Contains (notFoundMessage "Turku") "Turku" = true)
  /\ (err (GetWeatherData ∅ "Jyväskylä" (allSourcesFail 1000))
      = Some (notFoundMessage "Jyvaskyla")
      /\ sanitizeCityName "Jyväskylä" <> "Jyväskylä"%string
      /\ Contains (notFoundMessage "Jyvaskyla") "Jyväskylä" = false).
Proof.
  split.
  - split; [reflexivity|]. split; [reflexivity|].
    destruct (C6_message_names_normalized_city ∅ "Turku" (allSourcesFail 1000)
                (notFoundMessage "Turku")) as (_ & _ & H & _); [reflexivity|].
    apply H. reflexivity.
  - assert (Hne : sanitizeCityName "Jyväskylä" <> "Jyväskylä"%string)
      by (vm_compute; discriminate).
    split; [reflexivity|]. split; [exact Hne|].
    destruct (C6_message_names_normalized_city ∅ "Jyväskylä" (allSourcesFail 1000)
                (notFoundMessage "Jyvaskyla")) as (_ & _ & _ & _ & H);
      [reflexivity|].
    apply H, Hne.
Defined.
